(** * nose.plugins.errorclass

    A shallow embedding of [nose/plugins/errorclass.py]: the [ErrorClass]
    declaration, the [MetaErrorClass] metaclass that flattens declarations
    into the [errorClasses] registry of a plugin class, and the
    [ErrorClassPlugin] methods [addError], [prepareTestResult] and
    [patchResult], which extend a result object in place.

    The result object is a mutable Python object whose attributes may hold
    references to shared lists and dictionaries, so the embedding threads
    an explicit world (attribute namespace of the result plus a heap of
    lists and dictionaries) through a small state-and-exception monad. *)

From stdpp Require Import base option gmap strings list fin_maps.

Set Warnings "-register-all".

(* ===================================================================== *)
(** ** Python values *)
(* ===================================================================== *)

(** A class object, as far as [issubclass] is concerned: its name and its
    direct bases.  Two class objects are the same object when they have the
    same name and bases. *)
Inductive pyclass := PyClass (name : string) (bases : list pyclass).

Definition pyclass_eq_dec : ∀ a b : pyclass, {a = b} + {a ≠ b}.
Proof.
  fix IH 1. intros [n1 bs1] [n2 bs2].
  destruct (decide (n1 = n2)) as [->|Hn]; [|right; congruence].
  assert ({bs1 = bs2} + {bs1 ≠ bs2}) as [->|Hb].
  { revert bs2. induction bs1 as [|x xs IHxs]; intros [|y ys];
      try (left; reflexivity); try (right; discriminate).
    destruct (IH x y) as [->|Hxy]; [|right; congruence].
    destruct (IHxs ys) as [->|Hr]; [left; reflexivity|right; congruence]. }
  - left; reflexivity.
  - right; congruence.
Defined.

#[global] Instance pyclass_eq : EqDecision pyclass := pyclass_eq_dec.

(** [issubclass(a, b)] for classes: [b] is [a] or an ancestor of [a]. *)
Fixpoint issubclass (a b : pyclass) : bool :=
  bool_decide (a = b) ||
  match a with PyClass _ bs => existsb (fun p => issubclass p b) bs end.

(** Heap addresses of mutable lists and dictionaries. *)
Abbreviation loc := nat.

(** A bound method of the result object.  [Original n] is the method the
    result's own class provides under the name [n];
    [TextTestResult_im_func n] is
    [instancemethod(TextTestResult.n.im_func, result, result.__class__)]. *)
Inductive method :=
  | Original (name : string)
  | TextTestResult_im_func (name : string).

#[global] Instance method_eq : EqDecision method.
Proof. solve_decision. Defined.

(** The Python values that occur as exception-info components, declared
    exception classes, labels, flags and result attributes. *)
Inductive value :=
  | VNone
  | VBool (b : bool)
  | VStr (s : string)
  | VClass (c : pyclass)
  | VList (l : loc)
  | VDict (l : loc)
  | VMethod (m : method).

#[global] Instance value_eq : EqDecision value.
Proof. solve_decision. Defined.

(** A test case is identified by its id. *)
Definition test := string.

(** [sys.exc_info()] triple: (type, value, traceback). *)
Definition exc_info : Type := value * value * value.

(** The string [result._exc_info_to_string(err, test)], kept symbolic. *)
Inductive traceback := exc_info_to_string (err : exc_info) (t : test).

#[global] Instance traceback_eq : EqDecision traceback.
Proof. solve_decision. Defined.

(** The value of a dictionary entry of [result.errorClasses]:
    the tuple [(storage, label, isfail)]. *)
Definition index_entry : Type := value * value * value.

(** Heap objects: a list of [(test, formatted traceback)] pairs, or the
    [result.errorClasses] dictionary, kept in insertion order. *)
Inductive obj :=
  | OList (xs : list (test * traceback))
  | ODict (d : list (value * index_entry)).

(** The result object and the heap it points into.  [attrs] is what
    [getattr]/[hasattr] see on the result (instance attributes together with
    the methods its class provides); [setattr] writes to it. *)
Record world := World { attrs : gmap string value; heap : list obj }.

(* ===================================================================== *)
(** ** State and exceptions *)
(* ===================================================================== *)

Inductive exn :=
  | TypeError (msg : string)
  | AttributeError (name : string)
  | KeyError (key : string).

(** A computation reads and updates the world and either returns or raises;
    the world reached when the exception is raised is kept. *)
Definition M (A : Type) : Type := world → (exn + A) * world.

Definition ret {A} (x : A) : M A := λ w, (inr x, w).

Definition raise {A} (e : exn) : M A := λ w, (inl e, w).

Definition bind {A B} (c : M A) (k : A → M B) : M B :=
  λ w, match c w with
       | (inr x, w') => k x w'
       | (inl e, w') => (inl e, w')
       end.

Notation "x <- c ;; k" := (bind c (λ x, k))
  (at level 100, c at next level, right associativity).

(** [for x in xs: body(x)] *)
Fixpoint for_ {A} (xs : list A) (body : A → M unit) : M unit :=
  match xs with
  | [] => ret ()
  | x :: xs' => _ <- body x ;; for_ xs' body
  end.

(** [hasattr(result, name)] *)
Definition hasattr (name : string) : M bool :=
  λ w, (inr (bool_decide (is_Some (attrs w !! name))), w).

(** [result.name] *)
Definition getattr (name : string) : M value :=
  λ w, match attrs w !! name with
       | Some v => (inr v, w)
       | None => (inl (AttributeError name), w)
       end.

(** [getattr(result, name, default)] *)
Definition getattr_default (name : string) (dflt : value) : M value :=
  λ w, (inr (default dflt (attrs w !! name)), w).

(** [setattr(result, name, v)] *)
Definition setattr (name : string) (v : value) : M unit :=
  λ w, (inr (), World (<[name := v]> (attrs w)) (heap w)).

(** Evaluation of the list display [[]] and of the dict display [{}]:
    a new object at the next free address. *)
Definition new_list : M value :=
  λ w, (inr (VList (length (heap w))), World (attrs w) (heap w ++ [OList []])).

Definition new_dict : M value :=
  λ w, (inr (VDict (length (heap w))), World (attrs w) (heap w ++ [ODict []])).

(** Lists and dictionaries are unhashable; every other value here hashes,
    and equal keys are identical values. *)
Definition hashable (v : value) : bool :=
  match v with VList _ | VDict _ => false | _ => true end.

(** [d[k]] on an insertion-ordered dictionary. *)
Fixpoint dict_get (d : list (value * index_entry)) (k : value)
  : option index_entry :=
  match d with
  | [] => None
  | (k', v') :: d' => if decide (k' = k) then Some v' else dict_get d' k
  end.

(** [d[k] = v] on an insertion-ordered dictionary: an existing key keeps
    its position, a new key goes last. *)
Fixpoint dict_set (d : list (value * index_entry)) (k : value) (v : index_entry)
  : list (value * index_entry) :=
  match d with
  | [] => [(k, v)]
  | (k', v') :: d' =>
      if decide (k' = k) then (k, v) :: d' else (k', v') :: dict_set d' k v
  end.

(** [needle in haystack] for two strings. *)
Fixpoint str_contains (needle haystack : string) : bool :=
  String.prefix needle haystack ||
  match haystack with
  | EmptyString => false
  | String _ rest => str_contains needle rest
  end.

(** [k in c].  A dictionary tests its keys; a list compares [k] with its
    elements, which are [(test, traceback)] tuples and never equal a value
    of this model; a string accepts only a string on the left; nothing else
    is a container. *)
Definition py_contains (c k : value) : M bool :=
  λ w, match c with
       | VDict l =>
           match heap w !! l with
           | Some (ODict d) =>
               if hashable k then (inr (bool_decide (is_Some (dict_get d k))), w)
               else (inl (TypeError "unhashable type"), w)
           | _ => (inl (TypeError "not a dict"), w)
           end
       | VList l => (inr false, w)
       | VStr s =>
           match k with
           | VStr n => (inr (str_contains n s), w)
           | _ => (inl (TypeError "'in <string>' requires string as left operand"), w)
           end
       | _ => (inl (TypeError "argument is not iterable"), w)
       end.

(** [c[k] = v].  Only a dictionary supports it here. *)
Definition py_setitem (c k : value) (v : index_entry) : M unit :=
  λ w, match c with
       | VDict l =>
           match heap w !! l with
           | Some (ODict d) =>
               if hashable k
               then (inr (), World (attrs w) (<[l := ODict (dict_set d k v)]> (heap w)))
               else (inl (TypeError "unhashable type"), w)
           | _ => (inl (TypeError "not a dict"), w)
           end
       | _ => (inl (TypeError "object does not support item assignment"), w)
       end.

(** [storage.append(x)]: only a list has [append]. *)
Definition list_append (storage : value) (x : test * traceback) : M unit :=
  λ w, match storage with
       | VList l =>
           match heap w !! l with
           | Some (OList xs) =>
               (inr (), World (attrs w) (<[l := OList (xs ++ [x])]> (heap w)))
           | _ => (inl (AttributeError "append"), w)
           end
       | _ => (inl (AttributeError "append"), w)
       end.

(** Truth value of a Python value; a list or dictionary is true when it is
    not empty. *)
Definition truthy (h : list obj) (v : value) : bool :=
  match v with
  | VNone => false
  | VBool b => b
  | VStr s => negb (String.eqb s "")
  | VClass _ | VMethod _ => true
  | VList l | VDict l =>
      match h !! l with
      | Some (OList (_ :: _)) | Some (ODict (_ :: _)) => true
      | _ => false
      end
  end.

(** [issubclass(a, c)], the builtin, on the values of this model: the first
    argument must be a class and the second a class.  A tuple of classes,
    which the builtin accepts as second argument too, is not among these
    values; every other non-class is refused with [TypeError]. *)
Definition builtin_issubclass (a c : value) : M bool :=
  match a, c with
  | VClass a', VClass c' => ret (issubclass a' c')
  | VClass _, _ =>
      raise (TypeError "issubclass() arg 2 must be a class or tuple of classes")
  | _, _ => raise (TypeError "issubclass() arg 1 must be a class")
  end.

(** [filter(f, xs)] on a list, for a predicate that may raise. *)
Fixpoint filter_ {A} (f : A → M bool) (xs : list A) : M (list A) :=
  match xs with
  | [] => ret []
  | x :: xs' =>
      keep <- f x ;;
      rest <- filter_ f xs' ;;
      ret (if keep then x :: rest else rest)
  end.

(** Modelled from the spec: [nose.util.isclass], imported by the module but
    defined elsewhere; it tells whether the raised value's type component is
    classifiable as a type. *)
Definition isclass (v : value) : bool :=
  match v with VClass _ => true | _ => false end.

(* ===================================================================== *)
(** ** class ErrorClass *)
(* ===================================================================== *)

Module ErrorClass.

Record t := Build {
  errorClasses : list value;
  label : value;
  isfailure : value
}.

(** [kw.pop(key)] on the keyword dictionary. *)
Definition kw_pop (key : string) (kw : gmap string value)
  : exn + (value * gmap string value) :=
  match kw !! key with
  | Some v => inr (v, delete key kw)
  | None => inl (KeyError key)
  end.

(** The handler [except KeyError, e: raise TypeError("%s is a required named
    argument for ErrorClass" % e)]; [str(e)] is the [repr] of the key. *)
Definition except_KeyError (e : exn) : exn :=
  match e with
  | KeyError key =>
      TypeError ("'" +:+ key +:+ "' is a required named argument for ErrorClass")
  | _ => e
  end.

(** [ErrorClass.__init__(self, *errorClasses, **kw)] *)
Definition __init__ (errorClasses : list value) (kw : gmap string value)
  : exn + t :=
  match kw_pop "label" kw with
  | inl e => inl (except_KeyError e)
  | inr (label, kw) =>
      match kw_pop "isfailure" kw with
      | inl e => inl (except_KeyError e)
      | inr (isfailure, _) => inr (Build errorClasses label isfailure)
      end
  end.

(** [ErrorClass.__iter__(self)] *)
Definition __iter__ (self : t) : list value := errorClasses self.

End ErrorClass.

(* ===================================================================== *)
(** ** class MetaErrorClass *)
(* ===================================================================== *)

(** An attribute of a class body: an [ErrorClass] instance, or anything
    else. *)
Inductive attr_value :=
  | Declared (detail : ErrorClass.t)
  | Other (v : value).

(** The tuple [errorClasses] of a plugin class: entries
    [(cls, (name, label, isfailure))]. *)
Abbreviation registry := (list (value * (string * value * value))).

(** A class created by [MetaErrorClass]: its name, its bases among such
    classes, and its own [errorClasses] attribute. *)
Inductive plugin_class :=
  PluginClass (name : string) (bases : list plugin_class)
              (errorClasses : registry).

Module MetaErrorClass.

(** [attr.pop(name)] on the class-body dictionary. *)
Definition attr_pop (name : string) (attr : list (string * attr_value))
  : list (string * attr_value) :=
  filter (λ e, e.1 ≠ name) attr.

(** The inner loop [for cls in detail: errorClasses.append(...)]. *)
Definition append_all (name : string) (detail : ErrorClass.t)
  (errorClasses : registry) : registry :=
  fold_left
    (λ acc cls,
       acc ++ [(cls, (name, ErrorClass.label detail, ErrorClass.isfailure detail))])
    (ErrorClass.__iter__ detail) errorClasses.

(** One iteration of [for name, detail in attr.items()], on the pair of the
    dictionary [attr] and the list [errorClasses]. *)
Definition loop_body (st : list (string * attr_value) * registry)
  (item : string * attr_value) : list (string * attr_value) * registry :=
  let '(attr, errorClasses) := st in
  let '(name, detail) := item in
  match detail with
  | Declared d => (attr_pop name attr, append_all name d errorClasses)
  | Other _ => (attr, errorClasses)
  end.

(** [MetaErrorClass.__init__(self, name, bases, attr)].  [attr] is the class
    body as a Python 2 dictionary, given in the order [attr.items()] yields
    its items; the class object gets its [errorClasses] attribute from the
    loop, whatever its bases carry. *)
Definition __init__ (name : string) (bases : list plugin_class)
  (attr : list (string * attr_value)) : plugin_class :=
  let '(attr', errorClasses) := fold_left loop_body attr (attr, []) in
  PluginClass name bases errorClasses.

End MetaErrorClass.

(* ===================================================================== *)
(** ** The patch constructors *)
(* ===================================================================== *)

(** [add_error_patch(result)] *)
Definition add_error_patch : M value :=
  ret (VMethod (TextTestResult_im_func "addError")).

(** [print_errors_patch(result)] *)
Definition print_errors_patch : M value :=
  ret (VMethod (TextTestResult_im_func "printErrors")).

(** [wassuccessful_patch(result)] *)
Definition wassuccessful_patch : M value :=
  ret (VMethod (TextTestResult_im_func "wasSuccessful")).

(* ===================================================================== *)
(** ** class ErrorClassPlugin *)
(* ===================================================================== *)

Module ErrorClassPlugin.

(** [self.errorClasses]: a plugin instance has no such attribute of its
    own, so this is the attribute of its class. *)
Definition errorClasses (self : plugin_class) : registry :=
  match self with PluginClass _ _ errorClasses => errorClasses end.

(** [ErrorClassPlugin.addError(self, test, err)]; a plain [return] and
    falling off the end both give [None]. *)
Definition addError (self : plugin_class) (t : test) (err : exc_info)
  : M value :=
  let '(err_cls, a, b) := err in
  if negb (isclass err_cls) then ret VNone
  else
    let classes := map (λ e, e.1) (errorClasses self) in
    matching <- filter_ (λ c, builtin_issubclass err_cls c) classes ;;
    match matching with
    | _ :: _ => ret (VBool true)
    | [] => ret VNone
    end.

(** [ErrorClassPlugin.patchResult(self, result)] *)
Definition patchResult (self : plugin_class) : M unit :=
  orig <- getattr "addError" ;;
  patched <- add_error_patch ;;
  _ <- setattr "_orig_addError" orig ;;
  _ <- setattr "addError" patched ;;
  orig <- getattr "wasSuccessful" ;;
  patched <- wassuccessful_patch ;;
  _ <- setattr "_orig_wasSuccessful" orig ;;
  _ <- setattr "wasSuccessful" patched ;;
  has <- hasattr "printErrors" ;;
  _ <- (if has then
          orig <- getattr "printErrors" ;;
          patched <- print_errors_patch ;;
          _ <- setattr "_orig_printErrors" orig ;;
          setattr "printErrors" patched
        else ret ()) ;;
  d <- new_dict ;;
  setattr "errorClasses" d.

(** The body of the loop of [prepareTestResult]. *)
Definition merge_entry (e : value * (string * value * value)) : M unit :=
  let '(cls, (storage_attr, label, isfail)) := e in
  index <- getattr "errorClasses" ;;
  present <- py_contains index cls ;;
  if present then ret ()
  else
    empty <- new_list ;;
    storage <- getattr_default storage_attr empty ;;
    _ <- setattr storage_attr storage ;;
    index <- getattr "errorClasses" ;;
    py_setitem index cls (storage, label, isfail).

(** [ErrorClassPlugin.prepareTestResult(self, result)] *)
Definition prepareTestResult (self : plugin_class) : M unit :=
  has <- hasattr "errorClasses" ;;
  _ <- (if has then ret () else patchResult self) ;;
  for_ (errorClasses self) merge_entry.

End ErrorClassPlugin.

(* ===================================================================== *)
(** ** The methods patched into the result *)
(* ===================================================================== *)

Module TextTestResult.

(** The raised type is the declared exception type or a subtype of it; a
    raised value that is not a type matches nothing. *)
Definition is_subtype (ec cls : value) : bool :=
  match ec, cls with
  | VClass a, VClass b => issubclass a b
  | _, _ => false
  end.

(** The items of the category index, in insertion order. *)
Definition index_items (index : value) : M (list (value * index_entry)) :=
  λ w, match index with
       | VDict l =>
           match heap w !! l with
           | Some (ODict d) => (inr d, w)
           | _ => (inl (TypeError "not a dict"), w)
           end
       | _ => (inl (AttributeError "items"), w)
       end.

(** Modelled from the spec: [TextTestResult.addError] of [nose.result], whose
    function [add_error_patch] binds to the result but which is defined
    elsewhere.  Walk the category index in order; on the first entry whose
    exception type matches the raised type, append (test, formatted
    traceback) to that entry's bucket and suppress the default bookkeeping;
    when nothing matches, record the event in the default error bucket. *)
Definition addError (t : test) (err : exc_info) : M value :=
  let '(ec, ev, tb) := err in
  index <- getattr "errorClasses" ;;
  items <- index_items index ;;
  match List.find (λ e, is_subtype ec e.1) items with
  | Some (cls, (storage, label, isfail)) =>
      _ <- list_append storage (t, exc_info_to_string err t) ;;
      ret VNone
  | None =>
      errors <- getattr "errors" ;;
      _ <- list_append errors (t, exc_info_to_string err t) ;;
      ret VNone
  end.

(** Modelled from the spec: [TextTestResult.wasSuccessful] of [nose.result],
    bound to the result by [wassuccessful_patch] but defined elsewhere.
    False when the default failure bucket or the default error bucket is
    non-empty, or when some category whose isFailure flag is true has a
    non-empty bucket; true otherwise. *)
Definition wasSuccessful : M bool :=
  failures <- getattr "failures" ;;
  errors <- getattr "errors" ;;
  index <- getattr "errorClasses" ;;
  items <- index_items index ;;
  λ w,
    let h := heap w in
    if truthy h failures || truthy h errors then (inr false, w)
    else if existsb (λ e, let '(_, (storage, _, isfail)) := e in
                          truthy h isfail && truthy h storage) items
         then (inr false, w)
         else (inr true, w).

End TextTestResult.

(* ===================================================================== *)
(** ** Views of the world used in the statements *)
(* ===================================================================== *)

(** The dictionary [result.errorClasses], when the attribute is bound to
    one. *)
Definition index_of (w : world) : option (list (value * index_entry)) :=
  match attrs w !! "errorClasses" with
  | Some (VDict l) =>
      match heap w !! l with
      | Some (ODict d) => Some d
      | _ => None
      end
  | _ => None
  end.

(** [result.errorClasses[cls]], when there is such an entry. *)
Definition index_lookup (w : world) (cls : value) : option index_entry :=
  match index_of w with
  | Some d => dict_get d cls
  | None => None
  end.

(** The first entry of a registry declared for the exception type [cls]. *)
Fixpoint registry_get (r : registry) (cls : value)
  : option (string * value * value) :=
  match r with
  | [] => None
  | (k, v) :: r' => if decide (k = cls) then Some v else registry_get r' cls
  end.

(** The result has not been extended yet, or it carries a category index. *)
Definition index_ok (w : world) : Prop :=
  attrs w !! "errorClasses" = None ∨ is_Some (index_of w).

(** The registry entries a class-body item stands for. *)
Definition declared_entries (item : string * attr_value) : registry :=
  match item.2 with
  | Declared d =>
      map (λ cls, (cls, (item.1, ErrorClass.label d, ErrorClass.isfailure d)))
          (ErrorClass.errorClasses d)
  | Other _ => []
  end.

(** The storage name a registry entry carries. *)
Definition storage_name (e : value * (string * value * value)) : string :=
  e.2.1.1.

(** A computation result that, when it is an exception, is a [TypeError]. *)
Definition only_TypeError {A} (r : exn + A) : Prop :=
  ∀ e, r = inl e → ∃ msg, e = TypeError msg.

(** [cls in result.errorClasses] evaluates to true. *)
Definition contains (w : world) (cls : value) : Prop :=
  ∃ c, attrs w !! "errorClasses" = Some c ∧ py_contains c cls w = (inr true, w).

(** What a merge keeps: bound attributes keep their values, lists keep
    their contents, the category index only grows at its end, and a type
    present in the index stays present. *)
Definition extends (w w' : world) : Prop :=
  (∀ n v, attrs w !! n = Some v → attrs w' !! n = Some v)
  ∧ (∀ l xs, heap w !! l = Some (OList xs) → heap w' !! l = Some (OList xs))
  ∧ (∀ d, index_of w = Some d → ∃ d', index_of w' = Some (d ++ d'))
  ∧ (∀ k, contains w k → contains w' k).

(** The names [patchResult] may bind. *)
Definition patched_names : list string :=
  ["_orig_addError"; "addError"; "_orig_wasSuccessful"; "wasSuccessful";
   "_orig_printErrors"; "printErrors"; "errorClasses"].


(** What no call changes, whether it returns or raises: an attribute
    bound before stays bound to the same value, a list keeps its contents,
    and no heap address is given up. *)
Definition keeps (w w' : world) : Prop :=
  (∀ n v, attrs w !! n = Some v → attrs w' !! n = Some v)
  ∧ (∀ l xs, heap w !! l = Some (OList xs) → heap w' !! l = Some (OList xs))
  ∧ length (heap w) ≤ length (heap w').

(** The same, except that the attributes [patchResult] assigns may get new
    values; they stay bound. *)
Definition keeps_but_patched (w w' : world) : Prop :=
  (∀ n, is_Some (attrs w !! n) → is_Some (attrs w' !! n))
  ∧ (∀ n v, n ∉ patched_names → attrs w !! n = Some v → attrs w' !! n = Some v)
  ∧ (∀ l xs, heap w !! l = Some (OList xs) → heap w' !! l = Some (OList xs))
  ∧ length (heap w) ≤ length (heap w').

(** The attributes bound since [base] are bound to lists made since
    [base], still empty, one list per name. *)
Definition new_buckets (base w : world) : Prop :=
  ∀ n v, attrs base !! n = None → attrs w !! n = Some v →
    ∃ b, v = VList b
         ∧ length (heap base) ≤ b < length (heap w)
         ∧ heap w !! b = Some (OList [])
         ∧ ∀ n', attrs base !! n' = None → attrs w !! n' = Some (VList b) → n' = n.

(** [isinstance(detail, ErrorClass)] on a class-body attribute. *)
Definition is_declared (v : attr_value) : bool :=
  match v with Declared _ => true | Other _ => false end.

(** The names under which a class body holds [ErrorClass] instances. *)
Definition declared_names (items : list (string * attr_value)) : list string :=
  (filter (λ item, is_declared item.2 = true) items).*1.

(** The second arguments [issubclass] refuses: [None], a boolean, a string,
    a list, a dictionary and a bound method. *)
Definition issubclass_refuses (c : value) : bool :=
  match c with
  | VNone | VBool _ | VStr _ | VList _ | VDict _ | VMethod _ => true
  | VClass _ => false
  end.




(* ===================================================================== *)
(** ** Example classes, plugins and results *)
(* ===================================================================== *)

Definition Exception : pyclass := PyClass "Exception" [].

(** [class Todo(Exception)] of the module docstring, and a subclass. *)
Definition Todo : pyclass := PyClass "Todo" [Exception].
Definition UrgentTodo : pyclass := PyClass "UrgentTodo" [Todo].
Definition Later : pyclass := PyClass "Later" [Exception].

(** [class TodoError(ErrorClassPlugin):
       todo = ErrorClass(Todo, label='TODO', isfailure=True)] *)
Definition TodoError : plugin_class :=
  MetaErrorClass.__init__ "TodoError" []
    [("todo", Declared (ErrorClass.Build [VClass Todo] (VStr "TODO") (VBool true)))].

(** A second plugin that declares its category under the same name. *)
Definition LaterError : plugin_class :=
  MetaErrorClass.__init__ "LaterError" []
    [("todo", Declared (ErrorClass.Build [VClass Later] (VStr "LATER") (VBool false)))].

(** Two categories whose exception types overlap. *)
Definition BaseExc : pyclass := PyClass "BaseExc" [Exception].
Definition SubExc : pyclass := PyClass "SubExc" [BaseExc].

Definition overlap_body : list (string * attr_value) :=
  [("c1", Declared (ErrorClass.Build [VClass BaseExc] (VStr "C1") (VBool false)));
   ("c2", Declared (ErrorClass.Build [VClass SubExc] (VStr "C2") (VBool true)))].

Definition Overlap : plugin_class := MetaErrorClass.__init__ "Overlap" [] overlap_body.

(** A result as [unittest] makes it: empty [errors] and [failures] lists and
    its own three methods. *)
Definition fresh_result : world :=
  World (<["errors" := VList 0]>
         (<["failures" := VList 1]>
          (<["addError" := VMethod (Original "addError")]>
           (<["wasSuccessful" := VMethod (Original "wasSuccessful")]>
            (<["printErrors" := VMethod (Original "printErrors")]> ∅)))))
        [OList []; OList []].

Definition prepared_todo : world :=
  (ErrorClassPlugin.prepareTestResult TodoError fresh_result).2.

Definition prepared_twice : world :=
  (ErrorClassPlugin.prepareTestResult LaterError prepared_todo).2.


Definition recorded_todo : world :=
  (TextTestResult.addError "runTest" (VClass Todo, VNone, VNone) prepared_todo).2.






(** A result that has [addError] but no [wasSuccessful]. *)
Definition result_without_wasSuccessful : world :=
  World (delete "wasSuccessful" (attrs fresh_result)) (heap fresh_result).

(** A plugin one of whose declared exception types is a string. *)
Definition SloppyError : plugin_class :=
  MetaErrorClass.__init__ "SloppyError" []
    [("sloppy", Declared (ErrorClass.Build [VClass Todo; VStr "Todo"]
                                           (VStr "SLOPPY") (VBool false)))].

(** A plugin whose category is named like the default error list. *)
Definition ErrorsError : plugin_class :=
  MetaErrorClass.__init__ "ErrorsError" []
    [("errors", Declared (ErrorClass.Build [VClass Todo] (VStr "TODO") (VBool false)))].

Definition prepared_errors : world :=
  (ErrorClassPlugin.prepareTestResult ErrorsError fresh_result).2.

(** A plugin that declares [Todo] again, under another name. *)
Definition ShadowedError : plugin_class :=
  MetaErrorClass.__init__ "ShadowedError" []
    [("later", Declared (ErrorClass.Build [VClass Todo] (VStr "LATER") (VBool false)))].

Definition prepared_shadowed : world :=
  (ErrorClassPlugin.prepareTestResult ShadowedError prepared_todo).2.

(* ===================================================================== *)
(** ** ErrorClass and MetaErrorClass *)
(* ===================================================================== *)

(** C4: constructing an [ErrorClass] without the [label] keyword, or with
    [label] but without [isfailure], raises a [TypeError] that names the
    missing argument; with both keywords the construction succeeds and
    keeps the positional exception types, the label and the flag. *)
Theorem ErrorClass_init_requires_label_and_isfailure
    (errorClasses : list value) (kw : gmap string value) :
  ErrorClass.__init__ errorClasses kw =
    match kw !! "label", kw !! "isfailure" with
    | None, _ =>
        inl (TypeError "'label' is a required named argument for ErrorClass")
    | Some _, None =>
        inl (TypeError "'isfailure' is a required named argument for ErrorClass")
    | Some label, Some isfailure =>
        inr (ErrorClass.Build errorClasses label isfailure)
    end.
Proof.
  unfold ErrorClass.__init__, ErrorClass.kw_pop.
  destruct (kw !! "label") as [l|] eqn:Hl; [|reflexivity].
  rewrite lookup_delete_ne by done.
  destruct (kw !! "isfailure") as [f|] eqn:Hf; reflexivity.
Qed.

Lemma append_all_spec name d acc :
  MetaErrorClass.append_all name d acc = acc ++ declared_entries (name, Declared d).
Proof.
  unfold MetaErrorClass.append_all, declared_entries, ErrorClass.__iter__. simpl.
  generalize (ErrorClass.errorClasses d) as cs. intros cs. revert acc.
  induction cs as [|c cs IH]; intros acc; simpl.
  - by rewrite app_nil_r.
  - rewrite IH. by rewrite <- app_assoc.
Qed.

Lemma loop_body_fold items attr acc :
  (fold_left MetaErrorClass.loop_body items (attr, acc)).2 =
  acc ++ flat_map declared_entries items.
Proof.
  revert attr acc. induction items as [|[n v] items IH]; intros attr acc; simpl.
  - by rewrite app_nil_r.
  - destruct v as [d|v]; rewrite IH.
    + rewrite append_all_spec. by rewrite <- app_assoc.
    + reflexivity.
Qed.

Lemma MetaErrorClass_registry name bases attr :
  ErrorClassPlugin.errorClasses (MetaErrorClass.__init__ name bases attr) =
  flat_map declared_entries attr.
Proof.
  unfold MetaErrorClass.__init__.
  pose proof (loop_body_fold attr attr []) as H.
  destruct (fold_left MetaErrorClass.loop_body attr (attr, [])) as [a r].
  exact H.
Qed.

Lemma declared_entries_name item e :
  e ∈ declared_entries item → storage_name e = item.1.
Proof.
  destruct item as [n [d|v]]; unfold declared_entries; simpl.
  - intros [c [-> _]]%list_elem_of_fmap. reflexivity.
  - intros H. by apply elem_of_nil in H.
Qed.

Lemma filter_declared_other N item :
  item.1 ≠ N →
  filter (λ e, storage_name e = N) (declared_entries item) = [].
Proof.
  intros Hne.
  assert (∀ e, e ∈ declared_entries item → storage_name e ≠ N) as H.
  { intros e He Hn. apply declared_entries_name in He. congruence. }
  revert H. generalize (declared_entries item). intros l H.
  induction l as [|e es IH]; [reflexivity|].
  rewrite filter_cons_False by (apply H; left).
  apply IH. intros e' He'. apply H. by right.
Qed.

Lemma filter_declared_same N v :
  filter (λ e, storage_name e = N) (declared_entries (N, v)) =
  declared_entries (N, v).
Proof.
  pose proof (declared_entries_name (N, v)) as H.
  revert H. generalize (declared_entries (N, v)). intros l H.
  induction l as [|e es IH]; [reflexivity|].
  rewrite filter_cons_True by (apply H; left).
  f_equal. apply IH. intros e' He'. apply H. by right.
Qed.

Lemma filter_flat_map_other N attr :
  N ∉ attr.*1 →
  filter (λ e, storage_name e = N) (flat_map declared_entries attr) = [].
Proof.
  induction attr as [|it attr IH]; intros Hfresh; [reflexivity|].
  simpl in *. apply not_elem_of_cons in Hfresh as [Hne Hfresh].
  rewrite filter_app, filter_declared_other by congruence.
  by apply IH.
Qed.

Lemma filter_flat_map_declared N d attr :
  NoDup (attr.*1) → (N, Declared d) ∈ attr →
  filter (λ e, storage_name e = N) (flat_map declared_entries attr) =
  declared_entries (N, Declared d).
Proof.
  induction attr as [|item attr IH]; intros Hnd Hin.
  - by apply elem_of_nil in Hin.
  - simpl in *. apply NoDup_cons in Hnd as [Hfresh Hnd].
    rewrite filter_app. apply elem_of_cons in Hin as [<-|Hin].
    + rewrite filter_declared_same, filter_flat_map_other by done.
      by rewrite app_nil_r.
    + rewrite filter_declared_other.
      * by apply IH.
      * intros E. apply Hfresh. rewrite E.
        apply (list_elem_of_fmap_2 fst) in Hin. exact Hin.
Qed.

(** C8: the registry a class definition builds is the concatenation, in
    the order of the class body's items, of one entry per exception type of
    each declared category; a category declared under the name [N] with [K]
    exception types contributes exactly [K] entries, one per type, each
    carrying [N] with the category's label and flag; attributes that are not
    [ErrorClass] instances contribute none. *)
Theorem MetaErrorClass_one_entry_per_type_and_category
    (name : string) (bases : list plugin_class)
    (attr : list (string * attr_value)) :
  NoDup (attr.*1) →
  let errorClasses :=
    ErrorClassPlugin.errorClasses (MetaErrorClass.__init__ name bases attr) in
  errorClasses = flat_map declared_entries attr
  ∧ (∀ e, e ∈ errorClasses →
       ∃ d, (storage_name e, Declared d) ∈ attr
            ∧ e.1 ∈ ErrorClass.errorClasses d
            ∧ e.2 = (storage_name e, ErrorClass.label d, ErrorClass.isfailure d))
  ∧ (∀ N d, (N, Declared d) ∈ attr →
       filter (λ e, storage_name e = N) errorClasses =
         map (λ cls, (cls, (N, ErrorClass.label d, ErrorClass.isfailure d)))
             (ErrorClass.errorClasses d)
       ∧ length (filter (λ e, storage_name e = N) errorClasses) =
           length (ErrorClass.errorClasses d)).
Proof.
  intros Hnd errorClasses. subst errorClasses.
  rewrite MetaErrorClass_registry. split; [reflexivity|]. split.
  - intros e He. apply list_elem_of_In, in_flat_map in He as [[n v] [Hin He]].
    apply list_elem_of_In in Hin, He.
    pose proof (declared_entries_name _ _ He) as Hn. simpl in Hn.
    destruct v as [d|v]; unfold declared_entries in He; simpl in He.
    + apply list_elem_of_fmap in He as [c [-> Hc]].
      exists d. unfold storage_name in *. simpl in *. by subst.
    + by apply elem_of_nil in He.
  - intros N d Hin. rewrite (filter_flat_map_declared N d attr Hnd Hin).
    split; [reflexivity|]. unfold declared_entries. simpl. by rewrite length_map.
Qed.

(** C10: a plugin class whose body declares no [ErrorClass] gets the empty
    registry, whatever its bases carry; in general the registry of a class
    is built from its own body only. *)
Theorem MetaErrorClass_rebuilds_from_own_body
    (name : string) (bases : list plugin_class)
    (attr : list (string * attr_value)) :
  Forall (λ item, ∀ d, item.2 ≠ Declared d) attr →
  ErrorClassPlugin.errorClasses (MetaErrorClass.__init__ name bases attr) = []
  ∧ ∀ bases', ErrorClassPlugin.errorClasses (MetaErrorClass.__init__ name bases attr)
            = ErrorClassPlugin.errorClasses (MetaErrorClass.__init__ name bases' attr).
Proof.
  intros Hnone. split.
  - rewrite MetaErrorClass_registry.
    induction Hnone as [|[n v] attr Hv _ IH]; [reflexivity|].
    simpl. rewrite IH, app_nil_r. unfold declared_entries. simpl in *.
    destruct v as [d|v]; [by destruct (Hv d)|reflexivity].
  - intros bases'. by rewrite !MetaErrorClass_registry.
Qed.

(* ===================================================================== *)
(** ** The addError hook of the plugin *)
(* ===================================================================== *)

Lemma builtin_issubclass_pure a c :
  ∃ r, (∀ w, builtin_issubclass a c w = (r, w)) ∧ only_TypeError r.
Proof.
  destruct a, c; simpl; eexists; (split; [reflexivity|]);
    intros e [= <-]; eauto.
Qed.

Lemma filter_issubclass_pure a cs :
  ∃ r, (∀ w, filter_ (λ c, builtin_issubclass a c) cs w = (r, w))
       ∧ only_TypeError r.
Proof.
  induction cs as [|c cs [r [IH Hty]]]; cbn [filter_].
  - eexists. split; [reflexivity|]. intros e [=].
  - destruct (builtin_issubclass_pure a c) as [[e|keep] [Hc Hcty]].
    + exists (inl e). split.
      * intros w. unfold bind. by rewrite Hc.
      * intros e' [= <-]. by apply Hcty.
    + destruct r as [e|rest].
      * exists (inl e). split; [|exact Hty]. intros w. unfold bind. by rewrite Hc, IH.
      * eexists. split.
        -- intros w. unfold bind. rewrite Hc, IH. reflexivity.
        -- intros e [=].
Qed.

Lemma addError_pure self t err :
  ∃ r, (∀ w, ErrorClassPlugin.addError self t err w = (r, w))
       ∧ (r = inr VNone ∨ r = inr (VBool true) ∨ ∃ msg, r = inl (TypeError msg)).
Proof.
  destruct err as [[err_cls a] b]. unfold ErrorClassPlugin.addError.
  destruct (negb (isclass err_cls)); [eexists; split; [reflexivity|by left]|].
  destruct (filter_issubclass_pure err_cls
              (map (λ e, e.1) (ErrorClassPlugin.errorClasses self)))
    as [r [Hr Hty]].
  destruct r as [e|[|c cs]].
  - destruct (Hty e eq_refl) as [msg ->]. eexists. split.
    + intros w. unfold bind. rewrite Hr. reflexivity.
    + right; right; eauto.
  - eexists. split; [intros w; unfold bind; rewrite Hr; reflexivity|by left].
  - eexists. split; [intros w; unfold bind; rewrite Hr; reflexivity|].
    right; by left.
Qed.

(** When every declared exception type is a class, the filter keeps the
    classes the raised class is a subclass of. *)
Lemma filter_issubclass_classes (a : pyclass) (cs : list value) w :
  Forall (λ c, isclass c = true) cs →
  filter_ (λ c, builtin_issubclass (VClass a) c) cs w =
  (inr (List.filter (λ c, TextTestResult.is_subtype (VClass a) c) cs), w).
Proof.
  intros Hcs. revert w. induction Hcs as [|c cs Hc _ IH]; intros w.
  - reflexivity.
  - destruct c; try discriminate. simpl. unfold bind. simpl. rewrite IH.
    unfold ret. by destruct (issubclass a c).
Qed.

(** C5: when the type component of the exception info is not a class, the
    hook returns [None], a false value: it raises nothing and leaves the
    result object and every bucket as they were. *)
Theorem addError_declines_non_class
    (self : plugin_class) (t : test) (err_cls a b : value) (w : world) :
  isclass err_cls = false →
  ErrorClassPlugin.addError self t (err_cls, a, b) w = (inr VNone, w)
  ∧ truthy (heap w) VNone = false.
Proof.
  intros Hc. unfold ErrorClassPlugin.addError. by rewrite Hc.
Qed.

(** C9: the hook only computes an answer.  Whatever the plugin, the test
    and the exception info, the world it returns is the world it was given
    (no attribute of the result, no bucket and no dictionary changes; the
    plugin and its registry are values the hook only reads), and its answer
    does not depend on the world: it is [None], [True], or a [TypeError]
    from [issubclass]. *)
Theorem addError_hook_changes_nothing
    (self : plugin_class) (t : test) (err : exc_info) (w : world) :
  (ErrorClassPlugin.addError self t err w).2 = w
  ∧ (∀ w', (ErrorClassPlugin.addError self t err w').1 =
           (ErrorClassPlugin.addError self t err w).1)
  ∧ ((ErrorClassPlugin.addError self t err w).1 = inr VNone
     ∨ (ErrorClassPlugin.addError self t err w).1 = inr (VBool true)
     ∨ ∃ msg, (ErrorClassPlugin.addError self t err w).1 = inl (TypeError msg)).
Proof.
  destruct (addError_pure self t err) as [r [Hr Hcases]].
  split; [by rewrite Hr|]. split; [intros w'; by rewrite !Hr|].
  rewrite Hr. simpl. destruct Hcases as [->| [->| [msg ->]]]; eauto.
Qed.

(* ===================================================================== *)
(** ** prepareTestResult: one merge step *)
(* ===================================================================== *)

Lemma dict_set_fresh d k v :
  dict_get d k = None → dict_set d k v = d ++ [(k, v)].
Proof.
  induction d as [|[k' v'] d IH]; simpl; [done|].
  destruct (decide (k' = k)); [done|]. intros H. by rewrite IH.
Qed.

Lemma dict_get_app_Some d d' k v :
  dict_get d k = Some v → dict_get (d ++ d') k = Some v.
Proof.
  induction d as [|[k' v'] d IH]; simpl; [done|].
  destruct (decide (k' = k)); [done|]. exact IH.
Qed.

Lemma dict_get_app_None d d' k :
  dict_get d k = None → dict_get (d ++ d') k = dict_get d' k.
Proof.
  induction d as [|[k' v'] d IH]; simpl; [done|].
  destruct (decide (k' = k)); [done|]. exact IH.
Qed.

(** The attribute [errorClasses] as the second [getattr] of a merge step
    sees it, after [setattr(result, storage_attr, storage)]. *)
Lemma lookup_errorClasses_after_setattr (m : gmap string value) N dflt c :
  m !! "errorClasses" = Some c →
  <[N := default dflt (m !! N)]> m !! "errorClasses" = Some c.
Proof.
  intros Hc. destruct (decide (N = "errorClasses")) as [->|Hne].
  - by rewrite lookup_insert_eq, Hc.
  - by rewrite lookup_insert_ne.
Qed.

Lemma py_contains_world c k w r w0 : py_contains c k w = (r, w0) → w0 = w.
Proof. unfold py_contains. intros H. repeat case_match; by simplify_eq. Qed.

(** A merge step that returns either found the exception type already
    present and changed nothing, or found a dictionary without it and
    added one entry to it, binding the storage attribute to the value it
    had or, when it had none, to a new empty list. *)
Lemma merge_entry_inv cls N lab isf w w' :
  ErrorClassPlugin.merge_entry (cls, (N, lab, isf)) w = (inr (), w') →
  (w' = w ∧ ∃ c, attrs w !! "errorClasses" = Some c
                 ∧ py_contains c cls w = (inr true, w))
  ∨ (∃ l d, attrs w !! "errorClasses" = Some (VDict l)
            ∧ heap w !! l = Some (ODict d)
            ∧ dict_get d cls = None
            ∧ hashable cls = true
            ∧ w' = World
                (<[N := default (VList (length (heap w))) (attrs w !! N)]> (attrs w))
                (<[l := ODict (d ++ [(cls, (default (VList (length (heap w)))
                                                   (attrs w !! N), lab, isf))])]>
                   (heap w ++ [OList []]))).
Proof.
  unfold ErrorClassPlugin.merge_entry, bind, getattr.
  destruct (attrs w !! "errorClasses") as [c|] eqn:Hc; [|discriminate].
  destruct (py_contains c cls w) as [[e|[|]] w0] eqn:Hin; [discriminate| |].
  - assert (w0 = w) as -> by (by eapply py_contains_world).
    intros [= <-]. left. eauto.
  - assert (w0 = w) as -> by (by eapply py_contains_world).
    unfold new_list, getattr_default, setattr, ret. simpl.
    rewrite (lookup_errorClasses_after_setattr _ _ _ _ Hc).
    unfold py_contains in Hin. unfold py_setitem. simpl.
    destruct c as [| | | |l0|l|]; try discriminate.
    destruct (heap w !! l) as [[xs|d]|] eqn:Hl; try discriminate.
    rewrite (lookup_app_l_Some _ _ _ _ Hl).
    destruct (hashable cls) eqn:Hh; [|discriminate].
    injection Hin as Hin. apply bool_decide_eq_false in Hin.
    assert (dict_get d cls = None) as Hnone.
    { destruct (dict_get d cls); [|done]. destruct Hin. eauto. }
    intros [= <-]. right. exists l, d. rewrite dict_set_fresh by done.
    done.
Qed.

Lemma extends_refl w : extends w w.
Proof.
  repeat split; try done. intros d Hd. exists []. by rewrite app_nil_r.
Qed.

Lemma extends_trans w1 w2 w3 : extends w1 w2 → extends w2 w3 → extends w1 w3.
Proof.
  intros (A1 & L1 & I1 & C1) (A2 & L2 & I2 & C2). repeat split; eauto.
  intros d Hd. destruct (I1 d Hd) as [d' Hd']. destruct (I2 _ Hd') as [d'' Hd''].
  exists (d' ++ d''). by rewrite app_assoc.
Qed.

Lemma index_of_Some w d :
  index_of w = Some d ↔
  ∃ l, attrs w !! "errorClasses" = Some (VDict l) ∧ heap w !! l = Some (ODict d).
Proof.
  unfold index_of. split.
  - intros H. repeat case_match; simplify_eq. eauto.
  - intros (l & -> & ->). done.
Qed.

Lemma contains_dict w l d k :
  attrs w !! "errorClasses" = Some (VDict l) → heap w !! l = Some (ODict d) →
  contains w k ↔ hashable k = true ∧ is_Some (dict_get d k).
Proof.
  intros Ha Hl. unfold contains. split.
  - intros (c & Hc & Hin). rewrite Ha in Hc. injection Hc as <-.
    unfold py_contains in Hin. rewrite Hl in Hin.
    destruct (hashable k); [|discriminate]. injection Hin as Hin.
    by apply bool_decide_eq_true in Hin.
  - intros [Hh Hk]. exists (VDict l). split; [done|].
    unfold py_contains. rewrite Hl, Hh. by rewrite bool_decide_eq_true_2.
Qed.

Lemma merge_entry_extends e w w' :
  ErrorClassPlugin.merge_entry e w = (inr (), w') →
  extends w w' ∧ contains w' e.1.
Proof.
  destruct e as [cls [[N lab] isf]]. intros H.
  apply merge_entry_inv in H as [[-> Hc]|(l & d & Ha & Hl & Hnone & Hh & ->)].
  { split; [apply extends_refl|exact Hc]. }
  assert (l < length (heap w ++ [OList []])) as Hlt.
  { rewrite length_app. apply lookup_lt_Some in Hl. lia. }
  set (storage := default (VList (length (heap w))) (attrs w !! N)).
  set (w' := World _ _).
  assert (attrs w' !! "errorClasses" = Some (VDict l)) as Ha'.
  { by apply lookup_errorClasses_after_setattr. }
  assert (heap w' !! l = Some (ODict (d ++ [(cls, (storage, lab, isf))]))) as Hl'.
  { simpl. by rewrite list_lookup_insert_eq. }
  split; [repeat split|].
  - intros n v Hn. simpl. destruct (decide (N = n)) as [->|Hne].
    + rewrite lookup_insert_eq. subst storage. by rewrite Hn.
    + by rewrite lookup_insert_ne.
  - intros l0 xs Hl0. simpl.
    assert (l ≠ l0) by (intros ->; congruence).
    rewrite list_lookup_insert_ne by done. by apply lookup_app_l_Some.
  - intros d0 Hd0. apply index_of_Some in Hd0 as (l0 & Ha0 & Hl0).
    simplify_eq. eexists. apply index_of_Some. eauto.
  - intros k Hk. apply (contains_dict w l d k Ha Hl) in Hk as [Hhk [v Hv]].
    apply (contains_dict w' l _ k Ha' Hl'). split; [done|].
    exists v. by apply dict_get_app_Some.
  - apply (contains_dict w' l _ cls Ha' Hl'). split; [done|]. simpl.
    rewrite dict_get_app_None by done. simpl. rewrite decide_True by done. eauto.
Qed.

Lemma for_merge_extends reg w w' :
  for_ reg ErrorClassPlugin.merge_entry w = (inr (), w') →
  extends w w' ∧ Forall (λ e, contains w' e.1) reg.
Proof.
  revert w. induction reg as [|e reg IH]; intros w; simpl.
  - intros [= <-]. split; [apply extends_refl|constructor].
  - unfold bind. destruct (ErrorClassPlugin.merge_entry e w) as [[x|[]] w1] eqn:He;
      [discriminate|].
    intros Hrest. apply merge_entry_extends in He as [Hext Hc].
    apply IH in Hrest as [Hext' Hall]. split; [by eapply extends_trans|].
    constructor; [|done]. destruct Hext' as (_ & _ & _ & Hk). by apply Hk.
Qed.

Lemma merge_entry_present e w :
  contains w e.1 → ErrorClassPlugin.merge_entry e w = (inr (), w).
Proof.
  destruct e as [cls [[N lab] isf]]. intros (c & Hc & Hin).
  unfold ErrorClassPlugin.merge_entry, bind, getattr. simpl in *.
  by rewrite Hc, Hin.
Qed.

Lemma for_merge_present reg w :
  Forall (λ e, contains w e.1) reg →
  for_ reg ErrorClassPlugin.merge_entry w = (inr (), w).
Proof.
  induction 1 as [|e reg He _ IH]; [reflexivity|].
  simpl. unfold bind. by rewrite merge_entry_present.
Qed.

(** [patchResult] either raises or binds [errorClasses] to a new empty
    dictionary and [addError] and [wasSuccessful] to the patched methods;
    it binds no name outside [patched_names] and changes no heap object. *)
Lemma patchResult_inv self w w' :
  ErrorClassPlugin.patchResult self w = (inr (), w') →
  attrs w' !! "errorClasses" = Some (VDict (length (heap w)))
  ∧ heap w' = heap w ++ [ODict []]
  ∧ attrs w' !! "addError" = Some (VMethod (TextTestResult_im_func "addError"))
  ∧ attrs w' !! "wasSuccessful" =
      Some (VMethod (TextTestResult_im_func "wasSuccessful"))
  ∧ (∀ n, n ∉ patched_names → attrs w' !! n = attrs w !! n).
Proof.
  unfold ErrorClassPlugin.patchResult, bind, getattr, add_error_patch,
    wassuccessful_patch, print_errors_patch, hasattr, setattr, new_dict, ret.
  simpl. intros H.
  assert (∀ n, n ∉ patched_names →
            n ≠ "_orig_addError" ∧ n ≠ "addError" ∧ n ≠ "_orig_wasSuccessful"
            ∧ n ≠ "wasSuccessful" ∧ n ≠ "_orig_printErrors"
            ∧ n ≠ "printErrors" ∧ n ≠ "errorClasses") as Hnames.
  { intros n Hn. unfold patched_names in Hn.
    repeat (apply not_elem_of_cons in Hn as [? Hn]). done. }
  repeat (case_match; simplify_eq; simpl in * );
    (split; [by rewrite lookup_insert_eq|]); (split; [done|]);
    (split; [by repeat (rewrite lookup_insert_ne by done); rewrite lookup_insert_eq|]);
    (split; [by repeat (rewrite lookup_insert_ne by done); rewrite lookup_insert_eq|]);
    intros n (?&?&?&?&?&?&?)%Hnames;
    by repeat (rewrite lookup_insert_ne by done).
Qed.

(* ===================================================================== *)
(** ** prepareTestResult *)
(* ===================================================================== *)

(** A call of [prepareTestResult] that returns ran the merge loop from a
    world in which [errorClasses] was bound: the given world, or the one
    [patchResult] made. *)
Lemma prepareTestResult_inv self w w1 :
  ErrorClassPlugin.prepareTestResult self w = (inr (), w1) →
  ∃ wp, is_Some (attrs wp !! "errorClasses")
        ∧ for_ (ErrorClassPlugin.errorClasses self) ErrorClassPlugin.merge_entry wp
          = (inr (), w1)
        ∧ (is_Some (attrs w !! "errorClasses") ∧ wp = w
           ∨ attrs w !! "errorClasses" = None
             ∧ ErrorClassPlugin.patchResult self w = (inr (), wp)).
Proof.
  unfold ErrorClassPlugin.prepareTestResult, bind, hasattr.
  destruct (attrs w !! "errorClasses") as [c|] eqn:Hc.
  - rewrite bool_decide_eq_true_2 by eauto. unfold ret. intros H.
    exists w. rewrite Hc. eauto.
  - rewrite bool_decide_eq_false_2 by (intros [? [=]]).
    destruct (ErrorClassPlugin.patchResult self w) as [[e|[]] wp] eqn:Hp;
      [discriminate|].
    intros H. exists wp. split; [|eauto].
    apply patchResult_inv in Hp as [-> _]. eauto.
Qed.

(** C6: [prepareTestResult] is idempotent on a result.  When a call with a
    plugin returns, a second call with the same plugin returns as well and
    leaves the world exactly as the first call left it: the category index,
    every bucket and every attribute, among them the patched methods and
    the saved originals, so nothing is wrapped a second time. *)
Theorem prepareTestResult_idempotent
    (self : plugin_class) (w w1 : world) :
  ErrorClassPlugin.prepareTestResult self w = (inr (), w1) →
  ErrorClassPlugin.prepareTestResult self w1 = (inr (), w1)
  ∧ hasattr "errorClasses" w1 = (inr true, w1).
Proof.
  intros H. apply prepareTestResult_inv in H as (wp & [c Hc] & Hloop & _).
  apply for_merge_extends in Hloop as [(Hattrs & _) Hall].
  assert (hasattr "errorClasses" w1 = (inr true, w1)) as Hhas.
  { unfold hasattr. rewrite bool_decide_eq_true_2; [done|]. eauto. }
  split; [|exact Hhas].
  unfold ErrorClassPlugin.prepareTestResult, bind. rewrite Hhas. unfold ret.
  by apply for_merge_present.
Qed.

(* ===================================================================== *)
(** ** What the merge adds to the category index *)
(* ===================================================================== *)

Lemma index_lookup_extends w w' k v :
  extends w w' → index_lookup w k = Some v → index_lookup w' k = Some v.
Proof.
  intros (_ & _ & Hidx & _). unfold index_lookup.
  destruct (index_of w) as [d|] eqn:Hd; [|discriminate].
  destruct (Hidx d eq_refl) as [d' ->]. apply dict_get_app_Some.
Qed.


(** A merge step on an entry whose exception type is not in the index yet,
    when the index is a dictionary: the entry goes last, with the value of
    the storage attribute after the step. *)
Lemma merge_entry_adds cls N lab isf w w' d :
  ErrorClassPlugin.merge_entry (cls, (N, lab, isf)) w = (inr (), w') →
  index_of w = Some d → dict_get d cls = None →
  ∃ s, attrs w' !! N = Some s ∧ index_of w' = Some (d ++ [(cls, (s, lab, isf))]).
Proof.
  intros H Hd Hnone. apply index_of_Some in Hd as (l & Ha & Hl).
  apply merge_entry_inv in H as [[-> Hc]|(l0 & d0 & Ha0 & Hl0 & _ & _ & ->)].
  - apply (contains_dict w l d cls Ha Hl) in Hc as [_ [v Hv]]. congruence.
  - rewrite Ha in Ha0. injection Ha0 as <-.
    rewrite Hl in Hl0. injection Hl0 as <-.
    eexists. split; [simpl; apply lookup_insert_eq|].
    apply index_of_Some. exists l. split.
    + by apply lookup_errorClasses_after_setattr.
    + simpl. apply list_lookup_insert_eq. rewrite length_app.
      apply lookup_lt_Some in Hl. lia.
Qed.

(** A merge step on an entry whose exception type is in the index already
    changes nothing. *)
Lemma merge_entry_skips cls N lab isf w w' d v :
  ErrorClassPlugin.merge_entry (cls, (N, lab, isf)) w = (inr (), w') →
  index_of w = Some d → dict_get d cls = Some v → w' = w.
Proof.
  intros H Hd Hsome. apply index_of_Some in Hd as (l & Ha & Hl).
  apply merge_entry_inv in H as [[-> _]|(l0 & d0 & Ha0 & Hl0 & Hnone & _)];
    [done|].
  rewrite Ha in Ha0. injection Ha0 as <-.
  rewrite Hl in Hl0. injection Hl0 as <-. congruence.
Qed.

(** After the loop, the first registry entry of an exception type that was
    not in the index has an index entry with the value of its storage
    attribute and its own label and flag. *)
Lemma for_merge_adds reg w w' d cls N lab isf :
  for_ reg ErrorClassPlugin.merge_entry w = (inr (), w') →
  index_of w = Some d → dict_get d cls = None →
  registry_get reg cls = Some (N, lab, isf) →
  ∃ s, attrs w' !! N = Some s ∧ index_lookup w' cls = Some (s, lab, isf).
Proof.
  revert w d. induction reg as [|[k [[N' lab'] isf']] reg IH]; intros w d;
    cbn [for_ registry_get]; [discriminate|].
  unfold bind.
  destruct (ErrorClassPlugin.merge_entry (k, (N', lab', isf')) w)
    as [[x|[]] w1] eqn:He; [discriminate|].
  intros Hrest Hd Hnone Hget. destruct (decide (k = cls)) as [->|Hne].
  - injection Hget as -> -> ->.
    destruct (merge_entry_adds _ _ _ _ _ _ _ He Hd Hnone) as (s & Hs & Hd1).
    apply for_merge_extends in Hrest as [Hext _]. exists s. split.
    + destruct Hext as (Hattrs & _). by apply Hattrs.
    + apply (index_lookup_extends w1); [done|]. unfold index_lookup.
      rewrite Hd1, dict_get_app_None by done. simpl. by rewrite decide_True.
  - destruct (dict_get d k) as [v|] eqn:Hk.
    + rewrite (merge_entry_skips _ _ _ _ _ _ _ _ He Hd Hk) in Hrest. eauto.
    + destruct (merge_entry_adds _ _ _ _ _ _ _ He Hd Hk) as (s & Hs & Hd1).
      eapply (IH w1); [done|done| |done].
      rewrite dict_get_app_None by done. simpl. by rewrite decide_False.
Qed.




Lemma patchResult_index self w wp :
  ErrorClassPlugin.patchResult self w = (inr (), wp) → index_of wp = Some [].
Proof.
  intros (Ha & Hh & _)%patchResult_inv. apply index_of_Some.
  eexists. split; [exact Ha|]. rewrite Hh. by apply list_lookup_middle.
Qed.

(** A returning [prepareTestResult] on a result that is unextended or
    carries an index ran the merge loop from a world with an index: the one
    the result had, or the empty one [patchResult] made. *)
Lemma prepareTestResult_from_index self w w1 :
  ErrorClassPlugin.prepareTestResult self w = (inr (), w1) → index_ok w →
  ∃ wp d, index_of wp = Some d
          ∧ for_ (ErrorClassPlugin.errorClasses self) ErrorClassPlugin.merge_entry wp
            = (inr (), w1)
          ∧ (index_of w = Some d ∧ wp = w
             ∨ attrs w !! "errorClasses" = None ∧ d = []
               ∧ ErrorClassPlugin.patchResult self w = (inr (), wp)).
Proof.
  intros H Hok.
  apply prepareTestResult_inv in H as (wp & Hsome & Hloop & [[Hs ->]|[Hnone Hp]]).
  - destruct Hok as [Hnone|[d Hd]].
    + rewrite Hnone in Hs. by destruct Hs.
    + exists w, d. eauto.
  - exists wp, []. split; [by eapply patchResult_index|]. eauto 10.
Qed.

(* ===================================================================== *)
(** ** Routing an error event on the extended result *)
(* ===================================================================== *)

Lemma filter_nonempty {A} (f : A → bool) l x :
  x ∈ l → f x = true → ∃ y ys, List.filter f l = y :: ys.
Proof.
  induction l as [|z l IH]; intros Hin Hx; [by apply elem_of_nil in Hin|].
  simpl. destruct (f z) eqn:Hz; [eauto|].
  apply elem_of_cons in Hin as [->|Hin]; [congruence|]. by apply IH.
Qed.

(** The hook answers [True] when the raised class is a subclass of a
    declared exception type and every declared exception type is a class. *)
Lemma addError_handles self t (E T : pyclass) ev tb v w :
  Forall (λ e, isclass e.1 = true) (ErrorClassPlugin.errorClasses self) →
  (VClass T, v) ∈ ErrorClassPlugin.errorClasses self →
  issubclass E T = true →
  ErrorClassPlugin.addError self t (VClass E, ev, tb) w = (inr (VBool true), w).
Proof.
  intros Hcls Hin Hsub. unfold ErrorClassPlugin.addError. cbn [isclass negb].
  unfold bind. rewrite filter_issubclass_classes.
  - destruct (filter_nonempty (λ c, TextTestResult.is_subtype (VClass E) c)
                (map (λ e, e.1) (ErrorClassPlugin.errorClasses self)) (VClass T))
      as (y & ys & ->); [|done|done].
    apply (list_elem_of_fmap_2 (λ e, e.1)) in Hin. exact Hin.
  - apply Forall_fmap. exact Hcls.
Qed.


(** The patched [addError] on a result whose index has no matching entry:
    the event goes to the default error list. *)
Lemma TextTestResult_addError_default t ec ev tb w d b xs :
  index_of w = Some d →
  List.find (λ e, TextTestResult.is_subtype ec e.1) d = None →
  attrs w !! "errors" = Some (VList b) →
  heap w !! b = Some (OList xs) →
  TextTestResult.addError t (ec, ev, tb) w =
    (inr VNone,
     World (attrs w)
           (<[b := OList (xs ++ [(t, exc_info_to_string (ec, ev, tb) t)])]> (heap w))).
Proof.
  intros (l & Ha & Hl)%index_of_Some Hfind He Hb.
  unfold TextTestResult.addError, bind, getattr, TextTestResult.index_items.
  rewrite Ha, Hl, Hfind, He. unfold list_append. by rewrite Hb.
Qed.

(** An event whose type component is not a class matches no index entry,
    so the patched [addError] records it in the default error list. *)
Lemma TextTestResult_addError_non_class t ec ev tb w d b xs :
  isclass ec = false →
  index_of w = Some d →
  attrs w !! "errors" = Some (VList b) →
  heap w !! b = Some (OList xs) →
  TextTestResult.addError t (ec, ev, tb) w =
    (inr VNone,
     World (attrs w)
           (<[b := OList (xs ++ [(t, exc_info_to_string (ec, ev, tb) t)])]> (heap w))).
Proof.
  intros Hc Hd. apply TextTestResult_addError_default with d; [done|].
  clear Hd. induction d as [|e d IH]; [done|].
  simpl. destruct ec; try discriminate; exact IH.
Qed.






(** C3: on an extended result, whose [wasSuccessful] is the patched method
    and which carries a category index, the query returns, changes nothing,
    and answers false exactly when the default failure list is non-empty,
    or the default error list is non-empty, or some index entry has a true
    isFailure flag and a non-empty bucket; an entry whose flag is false
    has no part in the answer.  A list is non-empty in the sense used here
    exactly when it has an element. *)
Theorem wasSuccessful_false_iff_failure_recorded
    (w : world) (failures errors : value)
    (d : list (value * index_entry)) :
  attrs w !! "wasSuccessful" =
    Some (VMethod (TextTestResult_im_func "wasSuccessful")) →
  attrs w !! "failures" = Some failures →
  attrs w !! "errors" = Some errors →
  index_of w = Some d →
  (∃ verdict, TextTestResult.wasSuccessful w = (inr verdict, w)
     ∧ (verdict = false ↔
          truthy (heap w) failures = true
          ∨ truthy (heap w) errors = true
          ∨ ∃ cls storage label isfail,
              (cls, (storage, label, isfail)) ∈ d
              ∧ truthy (heap w) isfail = true
              ∧ truthy (heap w) storage = true))
  ∧ (∀ l xs, heap w !! l = Some (OList xs) →
       (truthy (heap w) (VList l) = true ↔ xs ≠ [])).
Proof.
  intros _ Hf He (l & Ha & Hl)%index_of_Some. split.
  - unfold TextTestResult.wasSuccessful, bind, getattr, TextTestResult.index_items.
    rewrite Hf, He, Ha, Hl.
    destruct (truthy (heap w) failures || truthy (heap w) errors) eqn:Hfe.
    { exists false. split; [done|]. split; [|done]. intros _.
      apply orb_true_iff in Hfe as [?|?]; auto. }
    apply orb_false_iff in Hfe as [Hf0 He0].
    match goal with
    | |- context [existsb ?f d] => destruct (existsb f d) eqn:Hex
    end.
    + exists false. split; [done|]. split; [|done]. intros _. right; right.
      apply existsb_exists in Hex as ([cls [[storage label] isfail]] & Hin & Hx).
      apply andb_true_iff in Hx as [? ?].
      exists cls, storage, label, isfail. by rewrite list_elem_of_In.
    + exists true. split; [done|]. split; [done|].
      intros [?|[?|(cls & storage & label & isfail & Hin & Hi & Hs)]];
        [congruence|congruence|].
      assert (existsb (λ e, let '(_, (storage, _, isfail)) := e in
                truthy (heap w) isfail && truthy (heap w) storage) d = true)
        as Hex'; [|congruence].
      apply existsb_exists. exists (cls, (storage, label, isfail)).
      rewrite <- list_elem_of_In. split; [done|]. by rewrite Hi, Hs.
  - intros l0 xs Hl0. simpl. rewrite Hl0. by destruct xs.
Qed.

(* ===================================================================== *)
(** ** The docstring example and an overlapping declaration, evaluated *)
(* ===================================================================== *)

Ltac evaluate := vm_compute; reflexivity.





Lemma wasSuccessful_false_iff_failure_recorded_witness :
  ∃ verdict, TextTestResult.wasSuccessful recorded_todo = (inr verdict, recorded_todo)
             ∧ verdict = false.
Proof.
  destruct (wasSuccessful_false_iff_failure_recorded
              recorded_todo (VList 1) (VList 0)
              [(VClass Todo, (VList 3, VStr "TODO", VBool true))])
    as [(verdict & Hrun & Hiff) _].
  - evaluate.
  - evaluate.
  - evaluate.
  - evaluate.
  - exists verdict. split; [exact Hrun|]. apply Hiff. right. right.
    exists (VClass Todo), (VList 3), (VStr "TODO"), (VBool true).
    split; [left|]. split; evaluate.
Defined.

Lemma addError_declines_non_class_witness :
  ErrorClassPlugin.addError TodoError "runTest" (VStr "Todo", VNone, VNone)
    prepared_todo = (inr VNone, prepared_todo)
  ∧ truthy (heap prepared_todo) VNone = false.
Proof.
  apply (addError_declines_non_class TodoError "runTest" (VStr "Todo") VNone VNone).
  reflexivity.
Defined.

Lemma prepareTestResult_idempotent_witness :
  ErrorClassPlugin.prepareTestResult TodoError prepared_todo = (inr (), prepared_todo)
  ∧ hasattr "errorClasses" prepared_todo = (inr true, prepared_todo).
Proof.
  apply (prepareTestResult_idempotent TodoError fresh_result prepared_todo).
  evaluate.
Defined.



Lemma MetaErrorClass_one_entry_per_type_and_category_witness :
  ErrorClassPlugin.errorClasses Overlap =
    [(VClass BaseExc, ("c1", VStr "C1", VBool false));
     (VClass SubExc, ("c2", VStr "C2", VBool true))]
  ∧ length (filter (λ e, storage_name e = "c1") (ErrorClassPlugin.errorClasses Overlap))
    = 1.
Proof.
  destruct (MetaErrorClass_one_entry_per_type_and_category
              "Overlap" [] overlap_body) as (Hreg & _ & Hper).
  - unfold overlap_body. simpl.
    apply NoDup_cons. split; [|apply NoDup_singleton].
    intros Hin. apply list_elem_of_singleton in Hin. discriminate.
  - split; [exact Hreg|].
    destruct (Hper "c1" (ErrorClass.Build [VClass BaseExc] (VStr "C1") (VBool false)))
      as [_ Hlen]; [left|exact Hlen].
Defined.

Lemma MetaErrorClass_rebuilds_from_own_body_witness :
  ErrorClassPlugin.errorClasses TodoError ≠ []
  ∧ ErrorClassPlugin.errorClasses
      (MetaErrorClass.__init__ "Quiet" [TodoError] [("score", Other VNone)]) = [].
Proof.
  split; [discriminate|].
  apply (MetaErrorClass_rebuilds_from_own_body "Quiet" [TodoError]
           [("score", Other VNone)]).
  repeat constructor. discriminate.
Defined.

(* ===================================================================== *)
(** ** What prepareTestResult leaves alone, also when it raises *)
(* ===================================================================== *)

Lemma keeps_refl w : keeps w w.
Proof. by repeat split. Qed.

Lemma keeps_trans w1 w2 w3 : keeps w1 w2 → keeps w2 w3 → keeps w1 w3.
Proof.
  intros (A1 & L1 & N1) (A2 & L2 & N2). repeat split; eauto. lia.
Qed.

Lemma keeps_weaken w w' : keeps w w' → keeps_but_patched w w'.
Proof.
  intros (A & L & N). repeat split; eauto. intros n [v Hv]. eauto.
Qed.

Lemma keeps_but_patched_then_keeps w1 w2 w3 :
  keeps_but_patched w1 w2 → keeps w2 w3 → keeps_but_patched w1 w3.
Proof.
  intros (B1 & A1 & L1 & N1) (A2 & L2 & N2). repeat split; eauto; [|lia].
  intros n Hn. destruct (B1 n Hn) as [v Hv]. eauto.
Qed.

Lemma py_setitem_world c k v w r w' :
  py_setitem c k v w = (r, w') →
  w' = w ∨ ∃ l d, heap w !! l = Some (ODict d)
                  ∧ w' = World (attrs w) (<[l := ODict (dict_set d k v)]> (heap w)).
Proof.
  unfold py_setitem. intros H. repeat case_match; simplify_eq; eauto.
Qed.

(** One merge step, whatever its outcome. *)
Lemma merge_entry_keeps e w r w' :
  ErrorClassPlugin.merge_entry e w = (r, w') → keeps w w'.
Proof.
  destruct e as [cls [[N lab] isf]].
  unfold ErrorClassPlugin.merge_entry, bind, getattr.
  destruct (attrs w !! "errorClasses") as [c|] eqn:Hc;
    [|intros [= <- <-]; apply keeps_refl].
  destruct (py_contains c cls w) as [[e|[|]] w0] eqn:Hin;
    pose proof (py_contains_world _ _ _ _ _ Hin) as ->;
    [intros [= <- <-]; apply keeps_refl|intros [= <- <-]; apply keeps_refl|].
  unfold new_list, getattr_default, setattr, ret. cbn [attrs heap].
  rewrite (lookup_errorClasses_after_setattr _ _ _ _ Hc).
  set (storage := default (VList (length (heap w))) (attrs w !! N)).
  set (wm := World (<[N:=storage]> (attrs w)) (heap w ++ [OList []])).
  assert (keeps w wm) as Hm.
  { repeat split; cbn [attrs heap wm].
    - intros n v Hn. destruct (decide (N = n)) as [->|Hne].
      + rewrite lookup_insert_eq. subst storage. by rewrite Hn.
      + by rewrite lookup_insert_ne.
    - intros l xs Hl. by apply lookup_app_l_Some.
    - rewrite length_app. lia. }
  intros Hset. apply py_setitem_world in Hset as [->|(l & d & Hl & ->)]; [done|].
  eapply keeps_trans; [exact Hm|]. repeat split; cbn [attrs heap].
  - done.
  - intros l0 xs Hl0. assert (l ≠ l0) by (intros ->; congruence).
    by rewrite list_lookup_insert_ne.
  - by rewrite length_insert.
Qed.

Lemma for_merge_keeps reg w r w' :
  for_ reg ErrorClassPlugin.merge_entry w = (r, w') → keeps w w'.
Proof.
  revert w. induction reg as [|e reg IH]; intros w; cbn [for_].
  - intros [= <- <-]. apply keeps_refl.
  - unfold bind.
    destruct (ErrorClassPlugin.merge_entry e w) as [[x|[]] w1] eqn:He.
    + intros [= <- <-]. by eapply merge_entry_keeps.
    + intros Hrest. eapply keeps_trans; [by eapply merge_entry_keeps|by eapply IH].
Qed.

Lemma patched_names_ne n :
  n ∉ patched_names →
  n ≠ "_orig_addError" ∧ n ≠ "addError" ∧ n ≠ "_orig_wasSuccessful"
  ∧ n ≠ "wasSuccessful" ∧ n ≠ "_orig_printErrors"
  ∧ n ≠ "printErrors" ∧ n ≠ "errorClasses".
Proof.
  intros Hn. unfold patched_names in Hn.
  repeat (apply not_elem_of_cons in Hn as [? Hn]). done.
Qed.

Lemma lookup_insert_is_Some' (m : gmap string value) k v n :
  is_Some (m !! n) → is_Some (<[k := v]> m !! n).
Proof.
  intros Hn. destruct (decide (k = n)) as [->|Hne].
  - rewrite lookup_insert_eq. eauto.
  - by rewrite lookup_insert_ne.
Qed.

(** [patchResult], whatever its outcome. *)
Lemma patchResult_keeps self w r w' :
  ErrorClassPlugin.patchResult self w = (r, w') → keeps_but_patched w w'.
Proof.
  unfold ErrorClassPlugin.patchResult, bind, getattr, add_error_patch,
    wassuccessful_patch, print_errors_patch, hasattr, setattr, new_dict, ret.
  cbn [attrs heap]. intros H.
  repeat (case_match; simplify_eq; cbn [attrs heap] in * );
    unfold keeps_but_patched; cbn [attrs heap];
    (split; [intros ? ?; by repeat apply lookup_insert_is_Some'|]);
    (split; [intros ? ? (?&?&?&?&?&?&?)%patched_names_ne ?;
             by repeat (rewrite lookup_insert_ne by done)|]);
    (split; [intros ? ? ?; by try apply lookup_app_l_Some|]);
    rewrite ?length_app; lia.
Qed.

(** X9: whatever [prepareTestResult] does, and also when it raises, it never
    unbinds an attribute of the result, never changes the value of an
    attribute outside the names [patchResult] assigns, never changes the
    contents of a list that existed, and never gives up a heap address; on a
    result that already has [errorClasses] it changes the value of no
    attribute at all. *)
Theorem prepareTestResult_never_unbinds_or_rewrites
    (self : plugin_class) (w : world) :
  let w' := (ErrorClassPlugin.prepareTestResult self w).2 in
  keeps_but_patched w w'
  ∧ (is_Some (attrs w !! "errorClasses") → keeps w w').
Proof.
  intros w'. subst w'.
  unfold ErrorClassPlugin.prepareTestResult, bind, hasattr.
  destruct (attrs w !! "errorClasses") as [c|] eqn:Hc.
  - rewrite bool_decide_eq_true_2 by eauto. unfold ret.
    destruct (for_ _ _ w) as [r w'] eqn:Hloop. cbn [snd].
    apply for_merge_keeps in Hloop. split; [by apply keeps_weaken|done].
  - rewrite bool_decide_eq_false_2 by (intros [? [=]]).
    split; [|intros [? [=]]].
    destruct (ErrorClassPlugin.patchResult self w) as [[e|[]] wp] eqn:Hp;
      cbn [snd].
    + by eapply patchResult_keeps.
    + destruct (for_ _ _ wp) as [r w'] eqn:Hloop. cbn [snd].
      eapply keeps_but_patched_then_keeps; [by eapply patchResult_keeps|].
      by eapply for_merge_keeps.
Qed.

(* ===================================================================== *)
(** ** patchResult: the saved originals, and a result it cannot patch *)
(* ===================================================================== *)

(** X1: when [prepareTestResult] returns on a result that had no
    [errorClasses], whatever the plugin declares (also nothing at all), the
    methods the result had are kept under [_orig_addError] and
    [_orig_wasSuccessful], the names [addError] and [wasSuccessful] are bound
    to the patched methods, and [printErrors], if the result had one, is
    saved and patched in the same way. *)
Theorem prepareTestResult_saves_the_original_methods
    (self : plugin_class) (w w1 : world) (orig_add orig_was : value) :
  attrs w !! "errorClasses" = None →
  attrs w !! "addError" = Some orig_add →
  attrs w !! "wasSuccessful" = Some orig_was →
  ErrorClassPlugin.prepareTestResult self w = (inr (), w1) →
  attrs w1 !! "_orig_addError" = Some orig_add
  ∧ attrs w1 !! "addError" = Some (VMethod (TextTestResult_im_func "addError"))
  ∧ attrs w1 !! "_orig_wasSuccessful" = Some orig_was
  ∧ attrs w1 !! "wasSuccessful" =
      Some (VMethod (TextTestResult_im_func "wasSuccessful"))
  ∧ (∀ orig_print, attrs w !! "printErrors" = Some orig_print →
       attrs w1 !! "_orig_printErrors" = Some orig_print
       ∧ attrs w1 !! "printErrors" =
           Some (VMethod (TextTestResult_im_func "printErrors"))).
Proof.
  intros Hnone Ha Hs Hprep.
  apply prepareTestResult_inv in Hprep as (wp & _ & Hloop & [[[c Hc] _]|[_ Hp]]);
    [congruence|].
  apply for_merge_keeps in Hloop as (Hattrs & _).
  revert Hp.
  unfold ErrorClassPlugin.patchResult, bind, getattr, add_error_patch,
    wassuccessful_patch, print_errors_patch, hasattr, setattr, new_dict, ret.
  cbn [attrs heap]. rewrite Ha. cbn [attrs heap].
  rewrite !lookup_insert_ne, Hs by done. cbn [attrs heap].
  rewrite !lookup_insert_ne by done.
  destruct (attrs w !! "printErrors") as [p|] eqn:Hpr.
  - rewrite bool_decide_eq_true_2 by eauto. cbn [attrs heap].
    rewrite !lookup_insert_ne, Hpr by done. cbn [attrs heap].
    intros [= <-]. repeat split; try intros ? [= <-]; try split;
      apply Hattrs; cbn [attrs];
      by repeat first [rewrite lookup_insert_eq | rewrite lookup_insert_ne by done].
  - rewrite bool_decide_eq_false_2 by (intros [? [=]]). cbn [attrs heap].
    intros [= <-]. repeat split; try (intros ? [=]);
      apply Hattrs; cbn [attrs];
      by repeat first [rewrite lookup_insert_eq | rewrite lookup_insert_ne by done].
Qed.

(** X2: a result that has [addError] but no [wasSuccessful] cannot be
    patched, and the attempt is not undone.  [prepareTestResult] raises
    [AttributeError] for [wasSuccessful] after it has already replaced
    [addError] and saved the original; [errorClasses] stays unbound, so a
    second attempt patches again, raises again, and this time saves the
    patched method under [_orig_addError], where the original was. *)
Theorem prepareTestResult_half_patches_without_wasSuccessful
    (self : plugin_class) (w : world) (orig_add : value) :
  attrs w !! "errorClasses" = None →
  attrs w !! "addError" = Some orig_add →
  attrs w !! "wasSuccessful" = None →
  let patched := VMethod (TextTestResult_im_func "addError") in
  let w1 := World (<["addError" := patched]>
                     (<["_orig_addError" := orig_add]> (attrs w))) (heap w) in
  let w2 := World (<["addError" := patched]>
                     (<["_orig_addError" := patched]> (attrs w1))) (heap w) in
  ErrorClassPlugin.prepareTestResult self w = (inl (AttributeError "wasSuccessful"), w1)
  ∧ ErrorClassPlugin.prepareTestResult self w1 =
      (inl (AttributeError "wasSuccessful"), w2)
  ∧ attrs w2 !! "_orig_addError" = Some patched
  ∧ attrs w2 !! "errorClasses" = None.
Proof.
  intros Hnone Ha Hs patched w1 w2.
  assert (∀ w0 a, attrs w0 !! "errorClasses" = None →
            attrs w0 !! "addError" = Some a →
            attrs w0 !! "wasSuccessful" = None →
            ErrorClassPlugin.prepareTestResult self w0 =
              (inl (AttributeError "wasSuccessful"),
               World (<["addError" := patched]>
                        (<["_orig_addError" := a]> (attrs w0))) (heap w0)))
    as Hfail.
  { intros w0 a H0 H1 H2.
    unfold ErrorClassPlugin.prepareTestResult, bind, hasattr.
    rewrite H0, bool_decide_eq_false_2 by (intros [? [=]]).
    unfold ErrorClassPlugin.patchResult, bind, getattr, add_error_patch,
      setattr, ret. cbn [attrs heap]. rewrite H1. cbn [attrs heap].
    by rewrite !lookup_insert_ne, H2 by done. }
  split; [by apply Hfail|]. split.
  - apply (Hfail w1 patched); subst w1; cbn [attrs].
    + by rewrite !lookup_insert_ne.
    + by rewrite lookup_insert_eq.
    + by rewrite !lookup_insert_ne.
  - subst w2 w1. cbn [attrs]. split.
    + by rewrite lookup_insert_ne, lookup_insert_eq.
    + by rewrite !lookup_insert_ne.
Qed.

(** A result without [addError]: the attempt raises and changes nothing. *)
Lemma prepareTestResult_without_addError self w :
  attrs w !! "errorClasses" = None →
  attrs w !! "addError" = None →
  ErrorClassPlugin.prepareTestResult self w = (inl (AttributeError "addError"), w).
Proof.
  intros H0 H1. unfold ErrorClassPlugin.prepareTestResult, bind, hasattr.
  rewrite H0, bool_decide_eq_false_2 by (intros [? [=]]).
  unfold ErrorClassPlugin.patchResult, bind, getattr. by rewrite H1.
Qed.

(* ===================================================================== *)
(** ** When prepareTestResult returns *)
(* ===================================================================== *)

(** A merge step on a result with an index returns when the exception type
    is hashable, and leaves an index. *)
Lemma merge_entry_returns cls N lab isf w d :
  index_of w = Some d → hashable cls = true →
  ∃ w' d', ErrorClassPlugin.merge_entry (cls, (N, lab, isf)) w = (inr (), w')
           ∧ index_of w' = Some d'.
Proof.
  intros Hd Hh. pose proof Hd as (l & Ha & Hl)%index_of_Some.
  unfold ErrorClassPlugin.merge_entry, bind, getattr. rewrite Ha.
  unfold py_contains at 1. rewrite Hl, Hh.
  destruct (bool_decide (is_Some (dict_get d cls))); [by exists w, d|].
  unfold new_list, getattr_default, setattr, ret. cbn [attrs heap].
  rewrite (lookup_errorClasses_after_setattr _ _ _ _ Ha).
  unfold py_setitem. cbn [attrs heap].
  rewrite (lookup_app_l_Some _ _ _ _ Hl), Hh.
  eexists _, _. split; [reflexivity|]. apply index_of_Some. exists l.
  split; [by apply lookup_errorClasses_after_setattr|].
  cbn [heap]. apply list_lookup_insert_eq. rewrite length_app.
  apply lookup_lt_Some in Hl. lia.
Qed.

(** On an unhashable exception type the membership test raises. *)
Lemma merge_entry_unhashable cls N lab isf w d :
  index_of w = Some d → hashable cls = false →
  ErrorClassPlugin.merge_entry (cls, (N, lab, isf)) w
    = (inl (TypeError "unhashable type"), w).
Proof.
  intros (l & Ha & Hl)%index_of_Some Hh.
  unfold ErrorClassPlugin.merge_entry, bind, getattr. rewrite Ha.
  unfold py_contains. by rewrite Hl, Hh.
Qed.

Lemma for_merge_returns reg w d :
  index_of w = Some d → Forall (λ e, hashable e.1 = true) reg →
  ∃ w', for_ reg ErrorClassPlugin.merge_entry w = (inr (), w').
Proof.
  intros Hd Hall. revert w d Hd.
  induction Hall as [|[cls [[N lab] isf]] reg Hh _ IH]; intros w d Hd;
    cbn [for_].
  - by exists w.
  - destruct (merge_entry_returns cls N lab isf w d Hd Hh) as (w1 & d1 & He & Hd1).
    destruct (IH w1 d1 Hd1) as [w' Hw']. exists w'. unfold bind. by rewrite He.
Qed.

Lemma for_merge_raises reg w d :
  index_of w = Some d → ¬ Forall (λ e, hashable e.1 = true) reg →
  ∃ w', for_ reg ErrorClassPlugin.merge_entry w
        = (inl (TypeError "unhashable type"), w').
Proof.
  revert w d. induction reg as [|[cls [[N lab] isf]] reg IH]; intros w d Hd Hnot.
  - destruct Hnot. constructor.
  - cbn [for_]. unfold bind. destruct (hashable cls) eqn:Hh.
    + destruct (merge_entry_returns cls N lab isf w d Hd Hh) as (w1 & d1 & He & Hd1).
      rewrite He. apply (IH w1 d1 Hd1). intros Hall. apply Hnot. by constructor.
    + rewrite (merge_entry_unhashable _ _ _ _ _ _ Hd Hh). by exists w.
Qed.

(** X3: on a result that carries an index, or that is unextended and has
    the two methods [patchResult] needs, [prepareTestResult] returns exactly
    when every declared exception type is hashable; otherwise it raises a
    [TypeError].  Labels, flags, storage names and attributes the result
    already has never make it raise. *)
Theorem prepareTestResult_returns_iff_types_hashable
    (self : plugin_class) (w : world) :
  (is_Some (index_of w)
   ∨ attrs w !! "errorClasses" = None
     ∧ is_Some (attrs w !! "addError") ∧ is_Some (attrs w !! "wasSuccessful")) →
  ((∃ w1, ErrorClassPlugin.prepareTestResult self w = (inr (), w1))
   ↔ Forall (λ e, hashable e.1 = true) (ErrorClassPlugin.errorClasses self))
  ∧ ((∃ w1, ErrorClassPlugin.prepareTestResult self w = (inr (), w1))
     ∨ ∃ msg w1, ErrorClassPlugin.prepareTestResult self w
                 = (inl (TypeError msg), w1)).
Proof.
  intros Hw.
  assert (∃ wp d, index_of wp = Some d
            ∧ ErrorClassPlugin.prepareTestResult self w =
              for_ (ErrorClassPlugin.errorClasses self)
                   ErrorClassPlugin.merge_entry wp) as (wp & d & Hd & ->).
  { unfold ErrorClassPlugin.prepareTestResult, bind, hasattr.
    destruct Hw as [[d Hd]|(Hnone & [a Ha] & [s Hs])].
    - pose proof Hd as (l & Hl & _)%index_of_Some.
      rewrite Hl, bool_decide_eq_true_2 by eauto. by exists w, d.
    - rewrite Hnone, bool_decide_eq_false_2 by (intros [? [=]]).
      assert (∃ wp, ErrorClassPlugin.patchResult self w = (inr (), wp))
        as [wp Hp].
      { unfold ErrorClassPlugin.patchResult, bind, getattr, add_error_patch,
          wassuccessful_patch, print_errors_patch, hasattr, setattr, new_dict,
          ret. cbn [attrs heap]. rewrite Ha. cbn [attrs heap].
        rewrite !lookup_insert_ne, Hs by done. cbn [attrs heap].
        rewrite !lookup_insert_ne by done.
        destruct (attrs w !! "printErrors") as [p|] eqn:Hpr.
        - rewrite bool_decide_eq_true_2 by eauto. cbn [attrs heap].
          rewrite !lookup_insert_ne, Hpr by done. by eexists.
        - rewrite bool_decide_eq_false_2 by (intros [? [=]]). by eexists. }
      rewrite Hp. exists wp, []. split; [by eapply patchResult_index|done]. }
  destruct (decide (Forall (λ e, hashable e.1 = true)
                           (ErrorClassPlugin.errorClasses self))) as [Hall|Hnot].
  - destruct (for_merge_returns _ _ _ Hd Hall) as [w1 Hw1].
    split; [split; eauto|eauto].
  - destruct (for_merge_raises _ _ _ Hd Hnot) as [w1 Hw1].
    split; [|right; eauto]. split; [|done].
    intros [w1' Hw1']. congruence.
Qed.

(* ===================================================================== *)
(** ** The hook's answer for a raised class *)
(* ===================================================================== *)

Lemma filter_is_subtype_nonempty (E : pyclass) (cs : list value) :
  (∃ y ys, List.filter (λ c, TextTestResult.is_subtype (VClass E) c) cs = y :: ys)
  ↔ ∃ T, VClass T ∈ cs ∧ issubclass E T = true.
Proof.
  induction cs as [|c cs IH]; simpl.
  - split; [intros (y & ys & [=])|intros (T & Hin & _); by apply elem_of_nil in Hin].
  - destruct c as [| | |T| | |];
      try (rewrite IH; split; intros (T' & Hin & Hs); exists T';
           (split; [|done]);
           [by right | by apply elem_of_cons in Hin as [[=]|Hin]]).
    destruct (issubclass E T) eqn:HT.
    + split; [intros _; exists T; split; [left|done] | eauto].
    + rewrite IH. split; intros (T' & Hin & Hs); exists T'; (split; [|done]).
      * by right.
      * apply elem_of_cons in Hin as [[= ->]|Hin]; [congruence|done].
Qed.

(** X4: for a raised class and a registry whose declared types are all
    classes, the hook answers [True] exactly when some declared type is the
    raised class or one of its ancestors, and [None] otherwise; it never
    raises, and neither the order of the declarations nor their names,
    labels and flags matter. *)
Theorem addError_handles_iff_some_declared_type_matches
    (self : plugin_class) (t : test) (E : pyclass) (ev tb : value) (w : world) :
  Forall (λ e, isclass e.1 = true) (ErrorClassPlugin.errorClasses self) →
  let handled := ∃ T v, (VClass T, v) ∈ ErrorClassPlugin.errorClasses self
                        ∧ issubclass E T = true in
  (handled →
     ErrorClassPlugin.addError self t (VClass E, ev, tb) w = (inr (VBool true), w))
  ∧ (¬ handled →
     ErrorClassPlugin.addError self t (VClass E, ev, tb) w = (inr VNone, w)).
Proof.
  intros Hcls handled.
  assert (handled ↔
          ∃ T, VClass T ∈ map (λ e, e.1) (ErrorClassPlugin.errorClasses self)
               ∧ issubclass E T = true) as Hh.
  { subst handled. split.
    - intros (T & v & Hin & Hs). exists T. split; [|done].
      apply (list_elem_of_fmap_2 (λ e, e.1)) in Hin. exact Hin.
    - intros (T & Hin & Hs). apply list_elem_of_fmap in Hin as ([k v] & Hk & Hin).
      simpl in Hk. subst k. eauto. }
  rewrite Hh, <- filter_is_subtype_nonempty.
  unfold ErrorClassPlugin.addError. cbn [isclass negb]. unfold bind.
  rewrite filter_issubclass_classes by (by apply Forall_fmap).
  destruct (List.filter _ _) as [|y ys].
  - split; [intros (y & ys & [=])|done].
  - split; [done|]. intros Hnot. destruct Hnot. eauto.
Qed.

Lemma filter_issubclass_raises (E : pyclass) (cs : list value) w :
  (∃ c, c ∈ cs ∧ isclass c = false) →
  filter_ (λ c, builtin_issubclass (VClass E) c) cs w =
    (inl (TypeError "issubclass() arg 2 must be a class or tuple of classes"), w).
Proof.
  induction cs as [|c cs IH]; intros (c0 & Hin & Hc0).
  - by apply elem_of_nil in Hin.
  - cbn [filter_]. unfold bind.
    destruct c as [| | |T| | |]; try reflexivity.
    change (builtin_issubclass (VClass E) (VClass T) w)
      with (@inr exn bool (issubclass E T), w).
    cbn beta iota. rewrite IH; [done|]. exists c0. split; [|done].
    apply elem_of_cons in Hin as [->|Hin]; [discriminate|done].
Qed.

(** X5: a declared exception type that is [None], a boolean, a string, a
    list, a dictionary or a bound method, none of which [issubclass] takes
    as its second argument, makes the hook raise [TypeError] for every
    raised class, also when another declared type matches it; the world is
    left as it was.  (A tuple of classes, which [issubclass] does take, is
    not among the values of this model and is not covered.) *)
Theorem addError_raises_when_issubclass_refuses_a_declared_type
    (self : plugin_class) (t : test) (E : pyclass) (ev tb : value) (w : world)
    (c : value) (v : string * value * value) :
  (c, v) ∈ ErrorClassPlugin.errorClasses self →
  issubclass_refuses c = true →
  ErrorClassPlugin.addError self t (VClass E, ev, tb) w =
    (inl (TypeError "issubclass() arg 2 must be a class or tuple of classes"), w).
Proof.
  intros Hin Hc. unfold ErrorClassPlugin.addError. cbn [isclass negb].
  unfold bind. rewrite filter_issubclass_raises; [done|].
  exists c. split; [|by destruct c].
  apply (list_elem_of_fmap_2 (λ e, e.1)) in Hin. exact Hin.
Qed.

(* ===================================================================== *)
(** ** The category index after prepareTestResult *)
(* ===================================================================== *)

Lemma merge_entry_other_key cls k N lab isf w w' d :
  ErrorClassPlugin.merge_entry (k, (N, lab, isf)) w = (inr (), w') →
  index_of w = Some d → dict_get d cls = None → k ≠ cls →
  ∃ d', index_of w' = Some d' ∧ dict_get d' cls = None.
Proof.
  intros He Hd Hnone Hne. destruct (dict_get d k) as [v|] eqn:Hk.
  - rewrite (merge_entry_skips _ _ _ _ _ _ _ _ He Hd Hk). eauto.
  - destruct (merge_entry_adds _ _ _ _ _ _ _ He Hd Hk) as (s & _ & Hd').
    eexists. split; [exact Hd'|].
    rewrite dict_get_app_None by done. simpl. by rewrite decide_False.
Qed.

(** The loop adds no entry for an exception type the registry does not
    declare. *)
Lemma for_merge_undeclared reg w w' d cls :
  for_ reg ErrorClassPlugin.merge_entry w = (inr (), w') →
  index_of w = Some d → dict_get d cls = None →
  registry_get reg cls = None →
  index_lookup w' cls = None.
Proof.
  revert w d. induction reg as [|[k [[N lab] isf]] reg IH]; intros w d;
    cbn [for_ registry_get].
  - intros [= <-] Hd Hnone _. unfold index_lookup. by rewrite Hd.
  - unfold bind.
    destruct (ErrorClassPlugin.merge_entry (k, (N, lab, isf)) w)
      as [[x|[]] w1] eqn:He; [discriminate|].
    intros Hrest Hd Hnone Hget. destruct (decide (k = cls)); [discriminate|].
    destruct (merge_entry_other_key cls _ _ _ _ _ _ _ He Hd Hnone)
      as (d' & Hd' & Hnone'); [done|]. by eapply IH.
Qed.

(** The index after a returning [prepareTestResult], entry by entry: an
    exception type that had an entry keeps it; otherwise the first
    declaration of the type in the registry decides, with the value of its
    storage attribute; a type declared nowhere has no entry. *)
Lemma prepared_index_lookup self w0 w1 cls :
  index_ok w0 →
  ErrorClassPlugin.prepareTestResult self w0 = (inr (), w1) →
  index_lookup w1 cls =
    match index_lookup w0 cls with
    | Some entry => Some entry
    | None =>
        match registry_get (ErrorClassPlugin.errorClasses self) cls with
        | Some (N, lab, isf) => (λ s, (s, lab, isf)) <$> attrs w1 !! N
        | None => None
        end
    end.
Proof.
  intros Hok Hprep.
  apply prepareTestResult_from_index in Hprep as (wp & d & Hd & Hloop & Hcase);
    [|done].
  assert (index_lookup w0 cls = dict_get d cls) as ->.
  { unfold index_lookup. destruct Hcase as [[-> _]|(Hnone & -> & _)]; [done|].
    unfold index_of. by rewrite Hnone. }
  destruct (dict_get d cls) as [entry|] eqn:Hget.
  - apply for_merge_extends in Hloop as [Hext _].
    apply (index_lookup_extends wp); [done|]. unfold index_lookup. by rewrite Hd.
  - destruct (registry_get _ cls) as [[[N lab] isf]|] eqn:Hreg.
    + destruct (for_merge_adds _ _ _ _ _ _ _ _ Hloop Hd Hget Hreg)
        as (s & -> & ->). done.
    + by eapply for_merge_undeclared.
Qed.

(** X6: the index after a returning [prepareTestResult], entry by entry.
    An exception type that already had an entry keeps it unchanged, whatever
    this plugin declares for it; a type without one gets the name, label and
    flag of its first declaration in the plugin's registry, later
    declarations of the same type being ignored, with the value bound to
    the storage attribute as bucket; a type the plugin does not declare
    gets no entry. *)
Theorem prepareTestResult_index_first_declaration_wins
    (self : plugin_class) (w0 w1 : world) :
  index_ok w0 →
  ErrorClassPlugin.prepareTestResult self w0 = (inr (), w1) →
  ∀ cls,
    index_lookup w1 cls =
      match index_lookup w0 cls with
      | Some entry => Some entry
      | None =>
          match registry_get (ErrorClassPlugin.errorClasses self) cls with
          | Some (N, lab, isf) => (λ s, (s, lab, isf)) <$> attrs w1 !! N
          | None => None
          end
      end.
Proof.
  intros Hok Hprep cls. by apply prepared_index_lookup.
Qed.

(** X8: a category whose storage name is already an attribute of the
    result does not get a list of its own: the value of that attribute
    becomes its bucket and stays bound to the name.  A category named
    [errors] therefore shares the default error list. *)
Theorem prepareTestResult_reuses_an_existing_attribute
    (self : plugin_class) (w0 w1 : world) (cls : value) (N : string)
    (lab isf v : value) :
  index_ok w0 →
  ErrorClassPlugin.prepareTestResult self w0 = (inr (), w1) →
  N ∉ patched_names →
  attrs w0 !! N = Some v →
  index_lookup w0 cls = None →
  registry_get (ErrorClassPlugin.errorClasses self) cls = Some (N, lab, isf) →
  index_lookup w1 cls = Some (v, lab, isf)
  ∧ attrs w1 !! N = Some v.
Proof.
  intros Hok Hprep HN Hv Hfresh Hreg.
  assert (attrs w1 !! N = Some v) as Hv1.
  { pose proof (prepareTestResult_inv _ _ _ Hprep)
      as (wp & _ & Hloop & [[_ ->]|[_ Hp]]);
      apply for_merge_keeps in Hloop as (Hattrs & _); apply Hattrs; [done|].
    apply patchResult_keeps in Hp as (_ & Hkeep & _). by apply Hkeep. }
  split; [|done].
  rewrite (prepared_index_lookup self w0 w1 cls Hok Hprep), Hfresh, Hreg.
  by rewrite Hv1.
Qed.

(** X10: the hook and the index agree.  On a result that was unextended
    and that a plugin with classes as declared types has prepared, the hook
    answers [True] for a raised class exactly when the index holds an entry
    for that class or one of its ancestors. *)
Theorem addError_handles_iff_index_has_a_matching_type
    (self : plugin_class) (w0 w1 : world) (t : test) (E : pyclass)
    (ev tb : value) :
  Forall (λ e, isclass e.1 = true) (ErrorClassPlugin.errorClasses self) →
  attrs w0 !! "errorClasses" = None →
  ErrorClassPlugin.prepareTestResult self w0 = (inr (), w1) →
  ErrorClassPlugin.addError self t (VClass E, ev, tb) w1 = (inr (VBool true), w1)
  ↔ ∃ T entry, index_lookup w1 (VClass T) = Some entry ∧ issubclass E T = true.
Proof.
  intros Hcls Hnone Hprep.
  assert (∀ cls, is_Some (index_lookup w1 cls) ↔
                 is_Some (registry_get (ErrorClassPlugin.errorClasses self) cls))
    as Hkeys.
  { intros cls.
    rewrite (prepared_index_lookup self w0 w1 cls (or_introl Hnone) Hprep).
    assert (index_lookup w0 cls = None) as ->.
    { unfold index_lookup, index_of. by rewrite Hnone. }
    destruct (registry_get _ cls) as [[[N lab] isf]|] eqn:Hreg; [|done].
    split; [eauto|]. intros _.
    apply prepareTestResult_inv in Hprep as (wp & _ & Hloop & [[[c Hc] _]|[_ Hp]]);
      [congruence|].
    apply patchResult_index in Hp.
    destruct (for_merge_adds _ _ _ _ _ _ _ _ Hloop Hp eq_refl Hreg)
      as (s & -> & _). simpl. eauto. }
  assert (∀ (r : registry) cls,
            is_Some (registry_get r cls) ↔ ∃ v, (cls, v) ∈ r) as Hget.
  { clear. intros r cls. induction r as [|[k v] r IH]; simpl.
    - split; [intros [? [=]]|intros [v Hin]; by apply elem_of_nil in Hin].
    - destruct (decide (k = cls)) as [->|Hne].
      + split; [intros _; exists v; left|eauto].
      + rewrite IH. split; intros [v' Hin]; exists v'.
        * by right.
        * apply elem_of_cons in Hin as [[=]|Hin]; [congruence|done]. }
  split.
  - intros Hhook.
    assert (∃ T v, (VClass T, v) ∈ ErrorClassPlugin.errorClasses self
                   ∧ issubclass E T = true) as (T & v & Hin & Hs).
    { revert Hhook. unfold ErrorClassPlugin.addError. cbn [isclass negb].
      unfold bind. rewrite filter_issubclass_classes by (by apply Forall_fmap).
      destruct (List.filter _ _) as [|y ys] eqn:Hf; [discriminate|]. intros _.
      destruct (proj1 (filter_is_subtype_nonempty E
                  (map (λ e, e.1) (ErrorClassPlugin.errorClasses self))))
        as (T & Hin & Hs); [eauto|].
      apply list_elem_of_fmap in Hin as ([k v] & Hk & Hin). simpl in Hk.
      subst k. eauto. }
    destruct (proj2 (Hkeys (VClass T))) as [entry Hentry];
      [apply Hget; eauto|]. eauto.
  - intros (T & entry & Hentry & Hs).
    destruct (proj1 (Hget (ErrorClassPlugin.errorClasses self) (VClass T)))
      as [v Hin]; [apply Hkeys; eauto|].
    by apply (addError_handles self t E T ev tb v).
Qed.

(* ===================================================================== *)
(** ** The buckets prepareTestResult creates *)
(* ===================================================================== *)

Lemma merge_entry_new_buckets base e w w' :
  ErrorClassPlugin.merge_entry e w = (inr (), w') →
  length (heap base) ≤ length (heap w) →
  new_buckets base w → new_buckets base w'.
Proof.
  destruct e as [cls [[N lab] isf]]. intros He Hlen Hnew.
  pose proof (merge_entry_keeps _ _ _ _ He) as (Hattrs & Hlists & Hlen').
  apply merge_entry_inv in He as [[-> _]|(l & d & Ha & Hl & _ & _ & Hw')];
    [done|].
  assert (l < length (heap w)) as Hlt by (by apply lookup_lt_Some in Hl).
  assert (attrs w' = <[N := default (VList (length (heap w))) (attrs w !! N)]>
                       (attrs w)) as Hattrs' by (by rewrite Hw').
  assert (length (heap w') = S (length (heap w))) as Hlen2.
  { rewrite Hw'. cbn [heap]. rewrite length_insert, length_app. simpl. lia. }
  assert (heap w' !! length (heap w) = Some (OList [])) as Hfresh.
  { rewrite Hw'. cbn [heap]. rewrite list_lookup_insert_ne by lia.
    by apply list_lookup_middle. }
  clear Hw'. intros n v Hb Hn. rewrite Hattrs' in Hn.
  destruct (attrs w !! N) as [v0|] eqn:HN; cbn [default] in *.
  - rewrite insert_id in Hn, Hattrs' by done.
    destruct (Hnew n v Hb Hn) as (b & -> & [Hlo Hhi] & Hempty & Hinj).
    exists b. split; [done|]. split; [lia|]. split; [by apply Hlists|].
    intros n' Hb' Hn'. rewrite Hattrs' in Hn'. by apply Hinj.
  - destruct (decide (N = n)) as [->|Hne].
    + rewrite lookup_insert_eq in Hn. injection Hn as <-.
      exists (length (heap w)). split; [done|]. split; [lia|]. split; [done|].
      intros n' Hb' Hn'. destruct (decide (n = n')) as [->|Hne']; [done|].
      rewrite Hattrs', lookup_insert_ne in Hn' by done.
      destruct (Hnew n' _ Hb' Hn') as (b & [= <-] & [_ Hhi] & _). lia.
    + rewrite lookup_insert_ne in Hn by done.
      destruct (Hnew n v Hb Hn) as (b & -> & [Hlo Hhi] & Hempty & Hinj).
      exists b. split; [done|]. split; [lia|]. split; [by apply Hlists|].
      intros n' Hb' Hn'. rewrite Hattrs' in Hn'.
      destruct (decide (N = n')) as [<-|Hne'].
      * rewrite lookup_insert_eq in Hn'. injection Hn' as Hb2. lia.
      * rewrite lookup_insert_ne in Hn' by done. by apply Hinj.
Qed.

Lemma for_merge_new_buckets base reg w w' :
  for_ reg ErrorClassPlugin.merge_entry w = (inr (), w') →
  length (heap base) ≤ length (heap w) →
  new_buckets base w → new_buckets base w'.
Proof.
  revert w. induction reg as [|e reg IH]; intros w; cbn [for_].
  - by intros [= <-].
  - unfold bind.
    destruct (ErrorClassPlugin.merge_entry e w) as [[x|[]] w1] eqn:He;
      [discriminate|].
    intros Hrest Hlen Hnew. apply (IH w1); [done| |].
    + apply merge_entry_keeps in He as (_ & _ & Hlen'). lia.
    + by eapply merge_entry_new_buckets.
Qed.

(** X7: the attributes [prepareTestResult] adds for categories.  A name
    that was not an attribute of the result, and is none of the names
    [patchResult] assigns, is afterwards, if bound at all, bound to a list at
    an address that was not in use before, so it is none of the lists the
    result had; the list is empty; and no other such name is bound to it. *)
Theorem prepareTestResult_makes_separate_empty_buckets
    (self : plugin_class) (w0 w1 : world) (n : string) (v : value) :
  ErrorClassPlugin.prepareTestResult self w0 = (inr (), w1) →
  n ∉ patched_names →
  attrs w0 !! n = None →
  attrs w1 !! n = Some v →
  ∃ b, v = VList b
       ∧ length (heap w0) ≤ b
       ∧ heap w1 !! b = Some (OList [])
       ∧ ∀ n', n' ∉ patched_names → attrs w0 !! n' = None →
               attrs w1 !! n' = Some (VList b) → n' = n.
Proof.
  intros Hprep Hn H0 H1.
  apply prepareTestResult_inv in Hprep as (wp & _ & Hloop & Hcase).
  assert (length (heap w0) ≤ length (heap wp)
          ∧ ∀ m, m ∉ patched_names → attrs w0 !! m = None → attrs wp !! m = None)
    as [Hlen Hsame].
  { destruct Hcase as [[_ ->]|[_ Hp]]; [done|].
    apply patchResult_inv in Hp as (_ & Hh & _ & _ & Hother).
    split; [rewrite Hh, length_app; lia|].
    intros m Hm Hm0. by rewrite Hother. }
  assert (new_buckets wp wp) as Hstart.
  { intros m x Hm Hx. congruence. }
  pose proof (for_merge_new_buckets wp _ _ _ Hloop (le_n _) Hstart) as Hnew.
  destruct (Hnew n v (Hsame n Hn H0) H1) as (b & -> & [Hlo _] & Hempty & Hinj).
  exists b. split; [done|]. split; [lia|]. split; [done|].
  intros n' Hn' H0' H1'. apply Hinj; [by apply Hsame|done].
Qed.

(* ===================================================================== *)
(** ** ErrorClass construction and the class body after the loop *)
(* ===================================================================== *)


Lemma filter_ext_elem {A} (P Q : A → Prop)
    `{!∀ x, Decision (P x), !∀ x, Decision (Q x)} (l : list A) :
  (∀ x, x ∈ l → (P x ↔ Q x)) → filter P l = filter Q l.
Proof.
  induction l as [|x l IH]; intros Hext; [done|].
  rewrite !filter_cons. rewrite IH by (intros y Hy; apply Hext; by right).
  apply decide_ext. apply Hext. left.
Qed.

Lemma unique_key {A B} (l : list (A * B)) k x x' :
  NoDup (l.*1) → (k, x) ∈ l → (k, x') ∈ l → x = x'.
Proof.
  induction l as [|[k0 x0] l IH]; intros Hnd Hx Hx'; [by apply elem_of_nil in Hx|].
  cbn [fmap list_fmap fst] in Hnd. apply NoDup_cons in Hnd as [Hk0 Hnd].
  apply elem_of_cons in Hx as [Hx|Hx];
    apply elem_of_cons in Hx' as [Hx'|Hx']; simplify_eq.
  - done.
  - destruct Hk0. apply (list_elem_of_fmap_2 fst) in Hx'. exact Hx'.
  - destruct Hk0. apply (list_elem_of_fmap_2 fst) in Hx. exact Hx.
  - by apply IH.
Qed.

Lemma loop_body_fold_attr items a r :
  (fold_left MetaErrorClass.loop_body items (a, r)).1 =
  filter (λ item, item.1 ∉ declared_names items) a.
Proof.
  revert a r. induction items as [|[n v] items IH]; intros a r; cbn [fold_left].
  - unfold declared_names. rewrite filter_nil. cbn [fmap list_fmap fst].
    induction a as [|x a IHa]; [done|].
    rewrite filter_cons_True by apply not_elem_of_nil. by rewrite <- IHa.
  - destruct v as [d|v]; cbn [MetaErrorClass.loop_body]; rewrite IH.
    + unfold MetaErrorClass.attr_pop. rewrite list_filter_filter.
      apply list_filter_iff. intros [k x]. unfold declared_names.
      rewrite filter_cons_True by done. cbn [fmap list_fmap fst].
      rewrite not_elem_of_cons. cbn [fst]. tauto.
    + apply list_filter_iff. intros [k x]. unfold declared_names.
      by rewrite filter_cons_False by done.
Qed.

(** X12: the dictionary [attr] that [MetaErrorClass.__init__] hands on to
    [type.__init__].  After the loop it holds exactly the items of the class
    body that are not [ErrorClass] instances, in their order: every
    declaration has been popped and nothing else. *)
Theorem MetaErrorClass_pops_exactly_the_declarations
    (attr : list (string * attr_value)) :
  NoDup (attr.*1) →
  (fold_left MetaErrorClass.loop_body attr (attr, [])).1 =
  filter (λ item, is_declared item.2 = false) attr.
Proof.
  intros Hnd. rewrite loop_body_fold_attr. apply filter_ext_elem.
  intros [k x] Hin. unfold declared_names. cbn [fst snd]. split.
  - intros Hnot. destruct (is_declared x) eqn:Hx; [|done]. destruct Hnot.
    assert ((k, x) ∈ filter (λ item, is_declared item.2 = true) attr) as Hf
      by (by apply list_elem_of_filter).
    apply (list_elem_of_fmap_2 fst) in Hf. exact Hf.
  - intros Hx Hk. apply list_elem_of_fmap in Hk as ([k' x'] & Hkk & Hin').
    apply list_elem_of_filter in Hin' as [Hx' Hin']. cbn [fst snd] in *. subst k'.
    assert (x = x') as <-; [|congruence].
    by eapply unique_key.
Qed.

(* ===================================================================== *)
(** ** A category that gets no bucket *)
(* ===================================================================== *)

Lemma for_merge_binds_no_other_name reg w w' d N :
  for_ reg ErrorClassPlugin.merge_entry w = (inr (), w') →
  index_of w = Some d →
  attrs w !! N = None →
  (∀ e, e ∈ reg → storage_name e = N → is_Some (dict_get d e.1)) →
  attrs w' !! N = None.
Proof.
  revert w d. induction reg as [|[k [[N' lab] isf]] reg IH]; intros w d;
    cbn [for_].
  - by intros [= <-].
  - unfold bind.
    destruct (ErrorClassPlugin.merge_entry (k, (N', lab, isf)) w)
      as [[x|[]] w1] eqn:He; [discriminate|].
    intros Hrest Hd HN Hshadow.
    destruct (dict_get d k) as [v|] eqn:Hk.
    + rewrite (merge_entry_skips _ _ _ _ _ _ _ _ He Hd Hk) in Hrest.
      apply (IH w d); [done|done|done|]. intros e He'. apply Hshadow. by right.
    + assert (N' ≠ N) as Hne.
      { intros ->. destruct (Hshadow (k, (N, lab, isf))) as [v Hv];
          [left|done|]. simpl in Hv. congruence. }
      destruct (merge_entry_adds _ _ _ _ _ _ _ He Hd Hk) as (s & _ & Hd1).
      apply (IH w1 _ Hrest Hd1).
      * apply merge_entry_inv in He as [[-> _]|(l & d0 & _ & _ & _ & _ & ->)];
          [done|]. cbn [attrs]. by rewrite lookup_insert_ne.
      * intros e He' Hn. destruct (Hshadow e) as [v Hv]; [by right|done|].
        exists v. by apply dict_get_app_Some.
Qed.

(** X13: [prepareTestResult] binds a storage name only while merging an
    entry.  When every registry entry that carries the name [N] declares an
    exception type the index already holds, and [N] was not an attribute of
    the result, then [N] is not an attribute afterwards either: such a
    category gets no bucket.  In particular no name is bound that no
    registry entry carries. *)
Theorem prepareTestResult_gives_no_bucket_to_a_shadowed_category
    (self : plugin_class) (w0 w1 : world) (N : string) :
  index_ok w0 →
  ErrorClassPlugin.prepareTestResult self w0 = (inr (), w1) →
  N ∉ patched_names →
  attrs w0 !! N = None →
  (∀ e, e ∈ ErrorClassPlugin.errorClasses self → storage_name e = N →
        is_Some (index_lookup w0 e.1)) →
  attrs w1 !! N = None.
Proof.
  intros Hok Hprep HN H0 Hshadow.
  apply prepareTestResult_from_index in Hprep as (wp & d & Hd & Hloop & Hcase);
    [|done].
  apply (for_merge_binds_no_other_name _ _ _ _ _ Hloop Hd).
  - destruct Hcase as [[_ ->]|(_ & _ & Hp)]; [done|].
    apply patchResult_inv in Hp as (_ & _ & _ & _ & Hother). by rewrite Hother.
  - intros e He Hn. destruct (Hshadow e He Hn) as [v Hv]. exists v.
    unfold index_lookup in Hv. destruct Hcase as [[Hd0 _]|(Hnone & _)].
    + by rewrite Hd0 in Hv.
    + unfold index_of in Hv. by rewrite Hnone in Hv.
Qed.

(* ===================================================================== *)
(** ** The further properties, evaluated on the examples *)
(* ===================================================================== *)

Lemma prepareTestResult_saves_the_original_methods_witness :
  attrs prepared_todo !! "_orig_addError" = Some (VMethod (Original "addError"))
  ∧ attrs prepared_todo !! "_orig_printErrors"
    = Some (VMethod (Original "printErrors")).
Proof.
  destruct (prepareTestResult_saves_the_original_methods
              TodoError fresh_result prepared_todo
              (VMethod (Original "addError")) (VMethod (Original "wasSuccessful")))
    as (Ha & _ & _ & _ & Hp); try evaluate.
  split; [exact Ha|]. apply (Hp (VMethod (Original "printErrors"))). evaluate.
Defined.

Lemma prepareTestResult_half_patches_without_wasSuccessful_witness :
  (ErrorClassPlugin.prepareTestResult TodoError result_without_wasSuccessful).1
    = inl (AttributeError "wasSuccessful")
  ∧ attrs (ErrorClassPlugin.prepareTestResult TodoError
             result_without_wasSuccessful).2 !! "addError"
    = Some (VMethod (TextTestResult_im_func "addError")).
Proof.
  destruct (prepareTestResult_half_patches_without_wasSuccessful
              TodoError result_without_wasSuccessful (VMethod (Original "addError")))
    as (H1 & _); try evaluate.
  rewrite H1. split; [reflexivity|]. evaluate.
Defined.

Lemma prepareTestResult_returns_iff_types_hashable_witness :
  ∃ w1, ErrorClassPlugin.prepareTestResult TodoError fresh_result = (inr (), w1).
Proof.
  destruct (prepareTestResult_returns_iff_types_hashable TodoError fresh_result)
    as [Hiff _].
  - right. split; [evaluate|]. split; eexists; evaluate.
  - apply Hiff. repeat constructor.
Defined.

Lemma addError_handles_iff_some_declared_type_matches_witness :
  ErrorClassPlugin.addError TodoError "runTest" (VClass Later, VNone, VNone)
    fresh_result = (inr VNone, fresh_result).
Proof.
  destruct (addError_handles_iff_some_declared_type_matches
              TodoError "runTest" Later VNone VNone fresh_result) as [_ Hno].
  - repeat constructor.
  - apply Hno. intros (T & v & Hin & Hs).
    apply list_elem_of_singleton in Hin. injection Hin as -> _. discriminate.
Defined.

Lemma addError_raises_when_issubclass_refuses_a_declared_type_witness :
  ErrorClassPlugin.addError SloppyError "runTest" (VClass Todo, VNone, VNone)
    fresh_result =
  (inl (TypeError "issubclass() arg 2 must be a class or tuple of classes"),
   fresh_result).
Proof.
  apply (addError_raises_when_issubclass_refuses_a_declared_type
           SloppyError "runTest" Todo VNone VNone fresh_result
           (VStr "Todo") ("sloppy", VStr "SLOPPY", VBool false)).
  - right. left.
  - reflexivity.
Defined.

Lemma prepareTestResult_index_first_declaration_wins_witness :
  index_lookup prepared_twice (VClass Todo) = Some (VList 3, VStr "TODO", VBool true)
  ∧ index_lookup prepared_twice (VClass Exception) = None.
Proof.
  pose proof (prepareTestResult_index_first_declaration_wins
                LaterError prepared_todo prepared_twice) as H.
  split.
  - rewrite (H ltac:(right; eexists; evaluate) ltac:(evaluate)). evaluate.
  - rewrite (H ltac:(right; eexists; evaluate) ltac:(evaluate)). evaluate.
Defined.

Lemma prepareTestResult_makes_separate_empty_buckets_witness :
  ∃ b, attrs prepared_todo !! "todo" = Some (VList b)
       ∧ length (heap fresh_result) ≤ b
       ∧ heap prepared_todo !! b = Some (OList []).
Proof.
  destruct (prepareTestResult_makes_separate_empty_buckets
              TodoError fresh_result prepared_todo "todo" (VList 3))
    as (b & Hv & Hlo & Hempty & _).
  - evaluate.
  - unfold patched_names. intros Hin.
    repeat (apply elem_of_cons in Hin as [Hin|Hin]; [discriminate|]).
    by apply elem_of_nil in Hin.
  - evaluate.
  - evaluate.
  - exists b. split; [|done]. rewrite <- Hv. evaluate.
Defined.

Lemma prepareTestResult_reuses_an_existing_attribute_witness :
  attrs fresh_result !! "errors" = Some (VList 0)
  ∧ index_lookup prepared_errors (VClass Todo)
    = Some (VList 0, VStr "TODO", VBool false).
Proof.
  split; [evaluate|].
  apply (prepareTestResult_reuses_an_existing_attribute
           ErrorsError fresh_result prepared_errors (VClass Todo) "errors"
           (VStr "TODO") (VBool false) (VList 0)); try evaluate.
  - left. evaluate.
  - unfold patched_names. intros Hin.
    repeat (apply elem_of_cons in Hin as [Hin|Hin]; [discriminate|]).
    by apply elem_of_nil in Hin.
Defined.

Lemma addError_handles_iff_index_has_a_matching_type_witness :
  ErrorClassPlugin.addError TodoError "runTest" (VClass UrgentTodo, VNone, VNone)
    prepared_todo = (inr (VBool true), prepared_todo)
  ↔ ∃ T entry, index_lookup prepared_todo (VClass T) = Some entry
               ∧ issubclass UrgentTodo T = true.
Proof.
  apply (addError_handles_iff_index_has_a_matching_type
           TodoError fresh_result prepared_todo "runTest" UrgentTodo VNone VNone).
  - repeat constructor.
  - evaluate.
  - evaluate.
Defined.


Lemma MetaErrorClass_pops_exactly_the_declarations_witness :
  (fold_left MetaErrorClass.loop_body
     (("score", Other VNone) :: overlap_body)
     (("score", Other VNone) :: overlap_body, [])).1
  = [("score", Other VNone)].
Proof.
  rewrite (MetaErrorClass_pops_exactly_the_declarations
             (("score", Other VNone) :: overlap_body)).
  - reflexivity.
  - unfold overlap_body. cbn [fmap list_fmap fst].
    repeat (apply NoDup_cons; split;
            [intros Hin;
             repeat (apply elem_of_cons in Hin as [Hin|Hin]; [discriminate|]);
             by apply elem_of_nil in Hin|]).
    apply NoDup_nil_2.
Defined.

Lemma prepareTestResult_gives_no_bucket_to_a_shadowed_category_witness :
  attrs prepared_shadowed !! "later" = None
  ∧ index_lookup prepared_shadowed (VClass Todo)
    = Some (VList 3, VStr "TODO", VBool true).
Proof.
  split; [|evaluate].
  apply (prepareTestResult_gives_no_bucket_to_a_shadowed_category
           ShadowedError prepared_todo prepared_shadowed "later").
  - right. eexists. evaluate.
  - evaluate.
  - unfold patched_names. intros Hin.
    repeat (apply elem_of_cons in Hin as [Hin|Hin]; [discriminate|]).
    by apply elem_of_nil in Hin.
  - evaluate.
  - intros e He _. apply list_elem_of_singleton in He. subst e. eexists. evaluate.
Defined.
